(** * bAInoculars: the capture pipeline and the mode state machine

    A shallow embedding of [bird_app.py]: the shared frame buffer written by
    [CameraThread], [capture_and_identify], and the Tk callbacks of [BAIApp]
    that implement the Explore and Arcade modes.

    Conventions of the embedding.
    - numpy arrays are mutable objects: they live in a heap indexed by
      references, [frame.copy()] allocates a new reference.
    - classifier scores are Python floats, i.e. binary64: they are Rocq's
      primitive floats, and [score * 100] and [conf >= 50] are the IEEE
      operations.
    - [time.time()] is kept as an exact count of microseconds (the rounding
      of the float subtractions of the countdown is not modelled).
    - Tk's [after] queue is a list of pending callbacks with their due
      time; one callback runs at a time, as in Tk's single-threaded loop.
    - the camera thread publishes a frame between two callbacks; [frame_lock]
      makes each publication and each snapshot one step.
    - [cv2.imwrite] and [os.rename] act on a map from paths to images; the
      two output folders exist, as the module creates them when it starts.
    - the classifier, the frame source, the GPIO pin and the wall clock are
      external: the classifier is a function of the image, the others are
      inputs of the events. *)

From Stdlib Require Import ZArith Floats Ascii String.
From stdpp Require Import base option list strings gmap.

Local Open Scope string_scope.
Local Open Scope Z_scope.

(** ** Strings *)

Module Str.

(** One character of [str.lower()]. Labels are byte strings here; only the
    ASCII letters are folded, which is all that a comparison with an ASCII
    needle can observe. *)
Definition lower_ascii (c : ascii) : ascii :=
  let n := N_of_ascii c in
  if ((65 <=? n) && (n <=? 90))%N then ascii_of_N (n + 32) else c.

Fixpoint lower (s : string) : string :=
  match s with
  | EmptyString => EmptyString
  | String c r => String (lower_ascii c) (lower r)
  end.

(** [starts_with p s]: [s.startswith(p)]. *)
Fixpoint starts_with (p s : string) : bool :=
  match p, s with
  | EmptyString, _ => true
  | String _ _, EmptyString => false
  | String a p', String b s' => bool_decide (a = b) && starts_with p' s'
  end.

(** [contains needle hay]: Python's [needle in hay] on strings. *)
Fixpoint contains (needle hay : string) : bool :=
  starts_with needle hay ||
  match hay with
  | EmptyString => false
  | String _ r => contains needle r
  end.

(** [s.replace(a, b)] for one-character [a] and [b]. *)
Fixpoint replace_char (a b : ascii) (s : string) : string :=
  match s with
  | EmptyString => EmptyString
  | String c r => String (if bool_decide (c = a) then b else c) (replace_char a b r)
  end.

(** What the specification calls a case-insensitive substring match: some
    factor of the string is the needle up to the case of its letters. *)
Definition contains_ci (needle s : string) : Prop :=
  ∃ pre mid post, s = pre +:+ mid +:+ post ∧ lower mid = lower needle.

End Str.

(** ** Numbers *)

(** The confidence returned by [capture_and_identify] is the int [0] or a
    float. *)
Inductive number :=
  | PyInt (z : Z)
  | PyFloat (f : float).

Definition fifty : float := 50%float.
Definition hundred : float := 100%float.

(** [n >= 50] and [n < 50] as Python evaluates them. *)
Definition ge50 (n : number) : bool :=
  match n with
  | PyInt z => 50 <=? z
  | PyFloat f => PrimFloat.leb fifty f
  end.

Definition lt50 (n : number) : bool :=
  match n with
  | PyInt z => z <? 50
  | PyFloat f => PrimFloat.ltb f fifty
  end.

(** ** Classifier output *)

Record prediction := Prediction { label : string; score : float }.

(** The decision block of [capture_and_identify] (the assignments to
    [bird_name] and [confidence] after the classifier returns). *)
Definition resolve_prediction (predictions : list prediction) : string * number :=
  match predictions with
  | [] => ("Unknown", PyInt 0)
  | top_pred :: _ =>
      let label := label top_pred in
      let conf := PrimFloat.mul (score top_pred) hundred in
      if PrimFloat.leb fifty conf && negb (Str.contains "looney" (Str.lower label))
      then (label, PyFloat conf)
      else ("Unknown", PyFloat conf)
  end.

(** ** Frames, time and storage *)

(** The pixels of an image, and references to numpy arrays. *)
Definition frame := list Byte.byte.
Definition ref := nat.

(** What [datetime.now()] returns. *)
Record datetime := Datetime {
  year : N; month : N; day : N;
  hour : N; minute : N; second : N;
  microsecond : N
}.

Definition digit (n : N) : ascii := ascii_of_N (48 + n mod 10).

Definition zero_pad2 (n : N) : string :=
  String (digit (n / 10)) (String (digit n) "").

Definition zero_pad4 (n : N) : string :=
  String (digit (n / 1000)) (String (digit (n / 100)) (zero_pad2 n)).

(** [d.strftime("%Y%m%d_%H%M%S")]. *)
Definition strftime (d : datetime) : string :=
  zero_pad4 (year d) +:+ zero_pad2 (month d) +:+ zero_pad2 (day d) +:+ "_" +:+
  zero_pad2 (hour d) +:+ zero_pad2 (minute d) +:+ zero_pad2 (second d).

(** Calls to the storage interface, in the order they are made. *)
Inductive storage_call :=
  | Imwrite (path : string) (img : frame)
  | Rename (src dst : string).

(** Everything outside the [BAIApp] object: the heap of arrays, the module
    global [global_frame], the files under the two output folders, the
    clocks, and two logs that record the calls to the storage functions
    and to the classifier. *)
Record World := mkWorld {
  heap : gmap ref frame;
  next_ref : ref;
  global_frame : option ref;
  files : gmap string frame;
  storage_log : list storage_call;
  classifier_log : list frame;
  clock : Z;
  wall : datetime
}.

(** The array behind a reference. Python references never dangle, so the
    default of the total lookup is never observed on a well-formed world. *)
Definition deref (w : World) (r : ref) : frame := heap w !!! r.

(** A new array holding [v]. *)
Definition np_alloc (v : frame) (w : World) : ref * World :=
  (next_ref w,
   mkWorld (<[next_ref w := v]> (heap w)) (S (next_ref w)) (global_frame w)
           (files w) (storage_log w) (classifier_log w) (clock w) (wall w)).

(** [r.copy()]. *)
Definition np_copy (r : ref) (w : World) : ref * World := np_alloc (deref w r) w.

(** An in-place update of the array [r], such as [cv2.putText(r, ...)]. *)
Definition np_mutate (r : ref) (f : frame → frame) (w : World) : World :=
  mkWorld (alter f r (heap w)) (next_ref w) (global_frame w)
          (files w) (storage_log w) (classifier_log w) (clock w) (wall w).

Definition set_global_frame (g : option ref) (w : World) : World :=
  mkWorld (heap w) (next_ref w) g
          (files w) (storage_log w) (classifier_log w) (clock w) (wall w).

(** [cv2.imwrite(path, r)]. *)
Definition cv2_imwrite (path : string) (r : ref) (w : World) : World :=
  mkWorld (heap w) (next_ref w) (global_frame w)
          (<[path := deref w r]> (files w))
          (storage_log w ++ [Imwrite path (deref w r)])
          (classifier_log w) (clock w) (wall w).

(** [os.rename(src, dst)]. A missing source raises in Python; the only call
    renames the file that [cv2.imwrite] has just written. *)
Definition os_rename (src dst : string) (w : World) : World :=
  mkWorld (heap w) (next_ref w) (global_frame w)
          (match files w !! src with
           | Some img => <[dst := img]> (delete src (files w))
           | None => files w
           end)
          (storage_log w ++ [Rename src dst])
          (classifier_log w) (clock w) (wall w).

Definition log_classifier (img : frame) (w : World) : World :=
  mkWorld (heap w) (next_ref w) (global_frame w)
          (files w) (storage_log w) (classifier_log w ++ [img]) (clock w) (wall w).

(** Time passes: [dt] microseconds on [time.time()], and a new reading of
    the wall clock. *)
Definition elapse (dt : Z) (now : datetime) (w : World) : World :=
  mkWorld (heap w) (next_ref w) (global_frame w)
          (files w) (storage_log w) (classifier_log w) (clock w + dt) now.

(** ** The frame buffer and the camera thread *)

(** [self.cap.read()]: [None] is [ret == False]; a frame that was read is a
    new array. *)
Definition cap_read (r : option frame) (w : World) : option ref * World :=
  match r with
  | Some v => let '(a, w1) := np_alloc v w in (Some a, w1)
  | None => (None, w)
  end.

(** The statement under [with frame_lock] in [CameraThread.run]. *)
Definition publish (src : ref) (w : World) : World :=
  let '(c, w1) := np_copy src w in set_global_frame (Some c) w1.

(** The statement under [with frame_lock] of the readers:
    [global_frame.copy() if global_frame is not None else None]. *)
Definition snapshot (w : World) : option ref * World :=
  match global_frame w with
  | Some g => let '(c, w1) := np_copy g w in (Some c, w1)
  | None => (None, w)
  end.

(** [CameraThread.__init__], given the result of its [cap.read()]. *)
Definition camera_init (r : option frame) (w : World) : World :=
  match cap_read r w with
  | (Some a, w1) => publish a w1
  | (None, w1) => set_global_frame None w1
  end.

(** One iteration of the loop of [CameraThread.run]. *)
Definition camera_cycle (r : option frame) (w : World) : World :=
  match cap_read r w with
  | (Some a, w1) => publish a w1
  | (None, w1) => w1
  end.

(** The loop of [CameraThread.run] for as many cycles as there are reads. *)
Definition camera_run (reads : list (option frame)) (w : World) : World :=
  foldl (λ w r, camera_cycle r w) w reads.

(** The content of the buffer, [None] for the empty sentinel. *)
Definition buffered (w : World) : option frame := deref w <$> global_frame w.

(** The last frame that was read successfully. *)
Definition last_acquired (reads : list (option frame)) : option frame :=
  foldl (λ acc r, match r with Some v => Some v | None => acc end) None reads.

(** A sequence of publications, one for each source array in turn. *)
Definition publish_all (srcs : list ref) (w : World) : World :=
  foldl (λ w src, publish src w) w srcs.

(** ** The application object *)

(** Which of the three frames of the window is packed: [f.winfo_manager()]
    is the empty string for the two others. *)
Inductive Mode := Menu | Explore | Arcade.

#[global] Instance Mode_eq_dec : EqDecision Mode.
Proof. solve_decision. Defined.

(** The texts drawn on a snapshot. *)
Inductive display_text :=
  | Identified (bird_name : string) (conf : number)
  | NoBird
  | TimesUp (final_score : Z).

(** The methods of [BAIApp] that are handed to [after]. *)
Inductive callback :=
  | ResumeExplore
  | UpdateExploreFrame
  | PollButtonExplore
  | ResumeArcadeUpdate
  | PollButtonArcade
  | UpdateArcadeFrame
  | BackToMenu.

(** The attributes of [BAIApp] that its methods read and write, the images
    and the text of its labels, and Tk's queue of pending [after] calls with
    the time each is due. *)
Record App := mkApp {
  shown : Mode;
  freeze_explore : bool;
  arcade_total : Z;
  arcade_running : bool;
  freeze_arcade : bool;
  arcade_start_time : option Z;
  pause_start_time : option Z;
  arcade_score : Z;
  arcade_birds : gset string;
  explore_label : option frame;
  arcade_label : option frame;
  arcade_info_label : option (Z * Z);
  timers : list (Z * callback)
}.

Definition set_shown (m : Mode) (a : App) : App :=
  mkApp m (freeze_explore a) (arcade_total a) (arcade_running a) (freeze_arcade a)
        (arcade_start_time a) (pause_start_time a) (arcade_score a) (arcade_birds a)
        (explore_label a) (arcade_label a) (arcade_info_label a) (timers a).

Definition set_freeze_explore (b : bool) (a : App) : App :=
  mkApp (shown a) b (arcade_total a) (arcade_running a) (freeze_arcade a)
        (arcade_start_time a) (pause_start_time a) (arcade_score a) (arcade_birds a)
        (explore_label a) (arcade_label a) (arcade_info_label a) (timers a).

Definition set_arcade_running (b : bool) (a : App) : App :=
  mkApp (shown a) (freeze_explore a) (arcade_total a) b (freeze_arcade a)
        (arcade_start_time a) (pause_start_time a) (arcade_score a) (arcade_birds a)
        (explore_label a) (arcade_label a) (arcade_info_label a) (timers a).

Definition set_freeze_arcade (b : bool) (a : App) : App :=
  mkApp (shown a) (freeze_explore a) (arcade_total a) (arcade_running a) b
        (arcade_start_time a) (pause_start_time a) (arcade_score a) (arcade_birds a)
        (explore_label a) (arcade_label a) (arcade_info_label a) (timers a).

Definition set_arcade_start_time (t : option Z) (a : App) : App :=
  mkApp (shown a) (freeze_explore a) (arcade_total a) (arcade_running a) (freeze_arcade a)
        t (pause_start_time a) (arcade_score a) (arcade_birds a)
        (explore_label a) (arcade_label a) (arcade_info_label a) (timers a).

Definition set_pause_start_time (t : option Z) (a : App) : App :=
  mkApp (shown a) (freeze_explore a) (arcade_total a) (arcade_running a) (freeze_arcade a)
        (arcade_start_time a) t (arcade_score a) (arcade_birds a)
        (explore_label a) (arcade_label a) (arcade_info_label a) (timers a).

Definition set_arcade_score (n : Z) (a : App) : App :=
  mkApp (shown a) (freeze_explore a) (arcade_total a) (arcade_running a) (freeze_arcade a)
        (arcade_start_time a) (pause_start_time a) n (arcade_birds a)
        (explore_label a) (arcade_label a) (arcade_info_label a) (timers a).

Definition set_arcade_birds (s : gset string) (a : App) : App :=
  mkApp (shown a) (freeze_explore a) (arcade_total a) (arcade_running a) (freeze_arcade a)
        (arcade_start_time a) (pause_start_time a) (arcade_score a) s
        (explore_label a) (arcade_label a) (arcade_info_label a) (timers a).

Definition set_explore_label (img : option frame) (a : App) : App :=
  mkApp (shown a) (freeze_explore a) (arcade_total a) (arcade_running a) (freeze_arcade a)
        (arcade_start_time a) (pause_start_time a) (arcade_score a) (arcade_birds a)
        img (arcade_label a) (arcade_info_label a) (timers a).

Definition set_arcade_label (img : option frame) (a : App) : App :=
  mkApp (shown a) (freeze_explore a) (arcade_total a) (arcade_running a) (freeze_arcade a)
        (arcade_start_time a) (pause_start_time a) (arcade_score a) (arcade_birds a)
        (explore_label a) img (arcade_info_label a) (timers a).

Definition set_arcade_info_label (t : option (Z * Z)) (a : App) : App :=
  mkApp (shown a) (freeze_explore a) (arcade_total a) (arcade_running a) (freeze_arcade a)
        (arcade_start_time a) (pause_start_time a) (arcade_score a) (arcade_birds a)
        (explore_label a) (arcade_label a) t (timers a).

Definition set_timers (q : list (Z * callback)) (a : App) : App :=
  mkApp (shown a) (freeze_explore a) (arcade_total a) (arcade_running a) (freeze_arcade a)
        (arcade_start_time a) (pause_start_time a) (arcade_score a) (arcade_birds a)
        (explore_label a) (arcade_label a) (arcade_info_label a) q.

(** The program state: the world and the application object. *)
Record State := mkState { world : World; app : App }.

Definition with_app (f : App → App) (st : State) : State :=
  mkState (world st) (f (app st)).

Definition with_world (w : World) (st : State) : State :=
  mkState w (app st).

(** [widget.after(ms, cb)]: [cb] is due [ms] milliseconds from now. *)
Definition after (ms : Z) (cb : callback) (st : State) : State :=
  with_app (λ a, set_timers (timers a ++ [(clock (world st) + ms * 1000, cb)]) a) st.

(** The countdown of [update_arcade_frame], in microseconds:
    [self.arcade_total - (time.time() - self.arcade_start_time)]. *)
Definition remaining_at (now start total : Z) : Z :=
  total * 1000000 - (now - start).

(** ** The program *)

Section Program.

(** The classifier pipeline as a function of the image it is given, and
    the pixels that the two [cv2.putText] calls of
    [overlay_text_on_frame] draw. The colour conversions are part of
    these functions. *)
Context (classifier : frame → list prediction).
Context (put_text : display_text → frame → frame).

(** [capture_and_identify(mode)]. *)
Definition capture_and_identify (mode : string) (w : World)
  : (string * number * option ref) * World :=
  match global_frame w with
  | None => (("Unknown", PyInt 0, None), w)
  | Some g =>
      let '(frame, w1) := np_copy g w in
      let timestamp := strftime (wall w1) in
      let raw_path := mode +:+ "_birds/bird_" +:+ timestamp +:+ ".jpg" in
      let w2 := cv2_imwrite raw_path frame w1 in
      let pil_image := deref w2 frame in
      let predictions := classifier pil_image in
      let w3 := log_classifier pil_image w2 in
      let '(bird_name, confidence) := resolve_prediction predictions in
      let safe_label := Str.replace_char " " "_" bird_name in
      let final_path :=
        mode +:+ "_birds/" +:+ safe_label +:+ "_" +:+ timestamp +:+ ".jpg" in
      let w4 := os_rename raw_path final_path w3 in
      ((bird_name, confidence, Some frame), w4)
  end.

(** [overlay_text_on_frame(frame, text)]: the text is drawn on a copy. *)
Definition overlay_text_on_frame (r : ref) (text : display_text) (w : World)
  : frame * World :=
  let '(annotated, w1) := np_copy r w in
  let w2 := np_mutate annotated (put_text text) w1 in
  (deref w2 annotated, w2).

Definition show_frame (m : Mode) (st : State) : State :=
  with_app (set_shown m) st.

Definition back_to_menu (st : State) : State :=
  show_frame Menu (with_app (set_arcade_running false) st).

(** *** Explore mode *)

Definition on_explore_capture (st : State) : State :=
  if freeze_explore (app st) then st
  else
    let st1 := with_app (set_freeze_explore true) st in
    let '((bird_name, conf, captured_frame), w) :=
      capture_and_identify "captured" (world st1) in
    let st2 := with_world w st1 in
    match captured_frame with
    | None => with_app (set_freeze_explore false) st2
    | Some fr =>
        let display_text :=
          if bool_decide (bird_name ≠ "Unknown") then Identified bird_name conf
          else NoBird in
        let '(annotated_img, w') :=
          overlay_text_on_frame fr display_text (world st2) in
        let st3 := with_app (set_explore_label (Some annotated_img)) (with_world w' st2) in
        after 2000 ResumeExplore st3
    end.

Definition resume_explore (st : State) : State :=
  with_app (set_freeze_explore false) st.

Definition update_explore_frame (st : State) : State :=
  if bool_decide (shown (app st) ≠ Explore) then st
  else
    let st1 :=
      if freeze_explore (app st) then st
      else
        match snapshot (world st) with
        | (Some fr, w) =>
            with_app (set_explore_label (Some (deref w fr))) (with_world w st)
        | (None, w) => with_world w st
        end in
    after 33 UpdateExploreFrame st1.

(** [gpio_low] is [GPIO.input(BUTTON_PIN) == GPIO.LOW] at the time of the
    call. *)
Definition poll_button_explore (gpio_low : bool) (st : State) : State :=
  if bool_decide (shown (app st) ≠ Explore) then after 100 PollButtonExplore st
  else if gpio_low && negb (freeze_explore (app st)) then
    after 300 PollButtonExplore (on_explore_capture st)
  else after 100 PollButtonExplore st.

Definition start_explore (gpio_low : bool) (st : State) : State :=
  let st1 := show_frame Explore st in
  let st2 := with_app (set_freeze_explore false) st1 in
  let st3 := update_explore_frame st2 in
  poll_button_explore gpio_low st3.

(** *** Arcade mode *)

Definition on_arcade_capture (st : State) : State :=
  if negb (arcade_running (app st)) || freeze_arcade (app st) then st
  else
    let st1 := with_app (set_freeze_arcade true) st in
    let st2 := with_app (set_pause_start_time (Some (clock (world st1)))) st1 in
    let '((bird_name, conf, captured_frame), w) :=
      capture_and_identify "arcade" (world st2) in
    let st3 := with_world w st2 in
    match captured_frame with
    | None => with_app (set_freeze_arcade false) st3
    | Some fr =>
        let '(st4, display_text) :=
          if bool_decide (bird_name ≠ "Unknown") && ge50 conf then
            (if bool_decide (bird_name ∉ arcade_birds (app st3)) then
               with_app (λ a, set_arcade_score (arcade_score a + 1)
                                (set_arcade_birds ({[bird_name]} ∪ arcade_birds a) a)) st3
             else st3,
             Identified bird_name conf)
          else (st3, NoBird) in
        let '(annotated_img, w') :=
          overlay_text_on_frame fr display_text (world st4) in
        let st5 := with_app (set_arcade_label (Some annotated_img)) (with_world w' st4) in
        after 2000 ResumeArcadeUpdate st5
    end.

(** [None]: a [TypeError], raised before any assignment when one of the
    two times is still [None]. *)
Definition resume_arcade_update (st : State) : option State :=
  match pause_start_time (app st), arcade_start_time (app st) with
  | Some pause_start, Some start =>
      let pause_duration := clock (world st) - pause_start in
      Some (with_app (λ a, set_freeze_arcade false
                             (set_arcade_start_time (Some (start + pause_duration)) a)) st)
  | _, _ => None
  end.

Definition show_arcade_final (st : State) : State :=
  let st1 :=
    match snapshot (world st) with
    | (Some fr, w) =>
        let '(final_img, w') :=
          overlay_text_on_frame fr (TimesUp (arcade_score (app st))) w in
        with_app (set_arcade_label (Some final_img)) (with_world w' st)
    | (None, w) => with_world w st
    end in
  after 2000 BackToMenu st1.

(** [None]: the [TypeError] of [time.time() - None]. *)
Definition update_arcade_frame (st : State) : option State :=
  if negb (arcade_running (app st)) || bool_decide (shown (app st) ≠ Arcade) then Some st
  else if freeze_arcade (app st) then Some (after 33 UpdateArcadeFrame st)
  else
    match arcade_start_time (app st) with
    | None => None
    | Some start =>
        let remaining := remaining_at (clock (world st)) start (arcade_total (app st)) in
        if remaining <=? 0 then
          Some (show_arcade_final (with_app (set_arcade_running false) st))
        else
          let st1 :=
            match snapshot (world st) with
            | (Some fr, w) =>
                with_app (set_arcade_label (Some (deref w fr))) (with_world w st)
            | (None, w) => with_world w st
            end in
          let st2 :=
            with_app (λ a, set_arcade_info_label
                             (Some (remaining `quot` 1000000, arcade_score a)) a) st1 in
          Some (after 33 UpdateArcadeFrame st2)
    end.

Definition poll_button_arcade (gpio_low : bool) (st : State) : State :=
  if negb (arcade_running (app st)) || bool_decide (shown (app st) ≠ Arcade) then
    after 100 PollButtonArcade st
  else if gpio_low && negb (freeze_arcade (app st)) then
    after 300 PollButtonArcade (on_arcade_capture st)
  else after 100 PollButtonArcade st.

Definition start_arcade (gpio_low : bool) (st : State) : option State :=
  let st1 :=
    with_app (λ a, set_arcade_start_time (Some (clock (world st)))
                     (set_freeze_arcade false
                        (set_arcade_running true
                           (set_arcade_birds ∅ (set_arcade_score 0 a))))) st in
  let st2 := show_frame Arcade st1 in
  st3 ← update_arcade_frame st2;
  Some (poll_button_arcade gpio_low st3).

Definition end_arcade_early (st : State) : State :=
  if arcade_running (app st) then
    show_arcade_final (with_app (set_arcade_running false) st)
  else back_to_menu st.

(** *** The event loop *)

(** What can happen next: time passes, the camera thread completes a
    cycle, the user presses a widget of the frame that is shown, or a
    pending [after] call that is due runs. *)
Inductive event :=
  | Elapse (dt : Z) (now : datetime)
  | CameraCycle (r : option frame)
  | PressExploreMode (gpio_low : bool)
  | PressArcadeMode (gpio_low : bool)
  | ClickExploreLabel
  | PressExploreBack
  | ClickArcadeLabel
  | PressArcadeBack
  | Fire (i : nat) (gpio_low : bool).

(** Tk reports an exception of a callback and goes on. *)
Definition run_callback (cb : callback) (gpio_low : bool) (st : State) : State :=
  match cb with
  | ResumeExplore => resume_explore st
  | UpdateExploreFrame => update_explore_frame st
  | PollButtonExplore => poll_button_explore gpio_low st
  | ResumeArcadeUpdate => default st (resume_arcade_update st)
  | PollButtonArcade => poll_button_arcade gpio_low st
  | UpdateArcadeFrame => default st (update_arcade_frame st)
  | BackToMenu => back_to_menu st
  end.

(** [None]: the event cannot happen in this state. *)
Definition step (e : event) (st : State) : option State :=
  match e with
  | Elapse dt now =>
      if bool_decide (0 ≤ dt) then Some (with_world (elapse dt now (world st)) st)
      else None
  | CameraCycle r => Some (with_world (camera_cycle r (world st)) st)
  | PressExploreMode low =>
      if bool_decide (shown (app st) = Menu) then Some (start_explore low st) else None
  | PressArcadeMode low =>
      if bool_decide (shown (app st) = Menu) then start_arcade low st else None
  | ClickExploreLabel =>
      if bool_decide (shown (app st) = Explore) then Some (on_explore_capture st) else None
  | PressExploreBack =>
      if bool_decide (shown (app st) = Explore) then Some (back_to_menu st) else None
  | ClickArcadeLabel =>
      if bool_decide (shown (app st) = Arcade) then Some (on_arcade_capture st) else None
  | PressArcadeBack =>
      if bool_decide (shown (app st) = Arcade) then Some (end_arcade_early st) else None
  | Fire i low =>
      match timers (app st) !! i with
      | Some (due, cb) =>
          if bool_decide (due ≤ clock (world st)) then
            Some (run_callback cb low (with_app (set_timers (delete i (timers (app st)))) st))
          else None
      | None => None
      end
  end.

Fixpoint run (evs : list event) (st : State) : option State :=
  match evs with
  | [] => Some st
  | e :: evs' => st' ← step e st; run evs' st'
  end.

(** The run of a list of events all of which satisfy [ok] in the state
    where they happen. *)
Fixpoint run_while (ok : State → event → bool) (evs : list event) (st : State)
  : option State :=
  match evs with
  | [] => Some st
  | e :: evs' =>
      if ok st e then st' ← step e st; run_while ok evs' st' else None
  end.

(** *** Observations on a session *)

(** The label that a capture request made in Arcade mode identifies, when
    the request is accepted, a frame is buffered, and the label is
    resolved with a confidence of at least 50. *)
Definition accepted_label (st : State) : option string :=
  if negb (arcade_running (app st)) || freeze_arcade (app st) then None
  else
    match global_frame (world st) with
    | None => None
    | Some g =>
        let '(bird_name, conf) :=
          resolve_prediction (classifier (deref (world st) g)) in
        if bool_decide (bird_name ≠ "Unknown") && ge50 conf then Some bird_name
        else None
    end.

(** The label identified by one event: a click on the Arcade image, or a
    poll of the button that finds it pressed while the Arcade frame is
    shown. *)
Definition identified_by (e : event) (st : State) : option string :=
  match e with
  | ClickArcadeLabel => accepted_label st
  | Fire i true =>
      match timers (app st) !! i with
      | Some (_, PollButtonArcade) =>
          if bool_decide (shown (app st) = Arcade) then accepted_label st else None
      | _ => None
      end
  | _ => None
  end.

(** The labels identified along a run. *)
Fixpoint identified (evs : list event) (st : State) : gset string :=
  match evs with
  | [] => ∅
  | e :: evs' =>
      match step e st with
      | Some st' =>
          match identified_by e st with
          | Some l => {[l]} ∪ identified evs' st'
          | None => identified evs' st'
          end
      | None => ∅
      end
  end.

(** The events of one session: Arcade mode is not entered again. *)
Definition same_session (_ : State) (e : event) : bool :=
  match e with
  | PressArcadeMode _ => false
  | _ => true
  end.

(** The events that can happen while a result is displayed: all but the
    resume callback itself and the ways out of the session. *)
Definition keeps_display (st : State) (e : event) : bool :=
  match e with
  | PressArcadeBack => false
  | Fire i _ =>
      match timers (app st) !! i with
      | Some (_, ResumeArcadeUpdate) | Some (_, BackToMenu) => false
      | _ => true
      end
  | _ => true
  end.

(** The score and the collection of a session, and their change when a
    label is identified (or none is). *)
Definition tally (st : State) : Z * gset string :=
  (arcade_score (app st), arcade_birds (app st)).

Definition bump (l : option string) (t : Z * gset string) : Z * gset string :=
  match l with
  | Some l => (t.1 + (if bool_decide (l ∈ t.2) then 0 else 1), {[l]} ∪ t.2)
  | None => t
  end.

(** The attributes that the countdown depends on. *)
Definition countdown (st : State)
  : Mode * bool * bool * option Z * option Z * Z * Z :=
  (shown (app st), arcade_running (app st), freeze_arcade (app st),
   arcade_start_time (app st), pause_start_time (app st), arcade_total (app st),
   arcade_score (app st)).

End Program.

(** The module-level initialisation and [BAIApp.__init__]: the camera
    thread is created, with the result [first_read] of its first read, and
    the window shows the menu. *)
Definition empty_world (t0 : Z) (d0 : datetime) : World :=
  mkWorld ∅ 0%nat None ∅ [] [] t0 d0.

Definition app_init : App :=
  mkApp Menu false 60 false false None None 0 ∅ None None None [].

Definition boot (first_read : option frame) (t0 : Z) (d0 : datetime) : State :=
  mkState (camera_init first_read (empty_world t0 d0)) app_init.

(** ** A concrete environment

    A classifier that looks at the first pixel, a text overlay that marks
    the first pixel, and a wall clock reading, to run the program on. *)

Definition robin_frame : frame := [Byte.x01; Byte.x10].
Definition blur_frame : frame := [Byte.x02; Byte.x20].
Definition looney_frame : frame := [Byte.x03; Byte.x30].
Definition owl_frame : frame := [Byte.x04; Byte.x40].
Definition blank_frame : frame := [Byte.x00].

Definition demo_classifier (img : frame) : list prediction :=
  match img with
  | Byte.x01 :: _ => [Prediction "robin" 0.75%float; Prediction "wren" 0.125%float]
  | Byte.x02 :: _ => [Prediction "robin" 0.25%float]
  | Byte.x03 :: _ => [Prediction "LOONEY BIRDS" 0.875%float]
  | Byte.x04 :: _ => [Prediction "snowy owl" 0.5%float]
  | _ => []
  end.

Definition demo_put_text (_ : display_text) (img : frame) : frame :=
  match img with
  | _ :: rest => Byte.xff :: rest
  | [] => []
  end.

Definition noon : datetime := Datetime 2024 5 17 12 0 7 250000.

Definition demo_boot (first_read : option frame) : State := boot first_read 0 noon.

Definition at_second (s us : N) : datetime := Datetime 2024 5 17 12 0 s us.

(** A user who leaves an Arcade session while a result is displayed and
    starts another one before the two seconds of the display are over.
    Times are in microseconds from the start of the program; every pending
    callback runs as soon as the loop is idle after it is due.
    - 0: Arcade mode is entered;
    - 990 000: a capture, the resume callback is due at 2 990 000;
    - 1 190 000: Back, the final score is shown;
    - 1 390 000: Back again, the menu is shown;
    - 1 490 000: Arcade mode is entered again;
    - 2 990 000: the tick and the poll of the new session run. *)
Definition second_session : list event :=
  [PressArcadeMode false;
   Elapse 990000 (at_second 8 240000); Fire 0 false; Fire 0 false;
   ClickArcadeLabel;
   Elapse 200000 (at_second 8 440000); Fire 0 false; Fire 0 false;
   PressArcadeBack;
   Elapse 200000 (at_second 8 640000); Fire 1 false; Fire 1 false;
   PressArcadeBack;
   Elapse 100000 (at_second 8 740000); Fire 2 false;
   PressArcadeMode false;
   Elapse 1500000 (at_second 10 240000); Fire 3 false; Fire 2 false; Fire 2 false].

(** A session in which the same bird is captured twice, then another one. *)
Definition three_captures : list event :=
  [ClickArcadeLabel;
   Elapse 2000000 (at_second 9 250000); Fire 2 false;
   ClickArcadeLabel;
   Elapse 2000000 (at_second 11 250000); Fire 2 false;
   CameraCycle (Some owl_frame);
   ClickArcadeLabel].

(** The states that these runs reach. *)
Definition demo_run (evs : list event) (st : State) : State :=
  default st (run demo_classifier demo_put_text evs st).

Definition robin_world : World := world (demo_boot (Some robin_frame)).

Definition arcade_started : State :=
  demo_run [PressArcadeMode false] (demo_boot (Some robin_frame)).

Definition after_three_captures : State := demo_run three_captures arcade_started.

Definition ten_seconds_in : State :=
  demo_run [Elapse 10000000 (at_second 17 250000)] arcade_started.

(** What happens while the result of a capture is displayed for two
    seconds: a tick and a poll run, and find the session frozen. *)
Definition two_second_display : list event :=
  [Elapse 1000000 (at_second 18 250000); Fire 0 false; Fire 0 false;
   Elapse 1000000 (at_second 19 250000)].

Definition display_over : State :=
  demo_run two_second_display
    (on_arcade_capture demo_classifier demo_put_text ten_seconds_in).

Definition in_second_session : State :=
  demo_run second_session (demo_boot (Some robin_frame)).

(** Both freeze flags are set: a capture in Explore mode, then at once the
    menu, Arcade mode and another capture. *)
Definition both_frozen : State :=
  demo_run [PressExploreMode false; ClickExploreLabel; PressExploreBack;
            PressArcadeMode false; ClickArcadeLabel]
           (demo_boot (Some owl_frame)).

(** ** Further observations

    What the further properties, after the ones above, are stated with. *)

(** The callbacks that are pending. *)
Definition callbacks (st : State) : list callback := (timers (app st)).*2.

(** A session that runs is shown and has a start time, and a resume
    callback that is pending finds the two times it subtracts. *)
Definition session_sound (st : State) : Prop :=
  (arcade_running (app st) = true →
     shown (app st) = Arcade ∧ is_Some (arcade_start_time (app st))) ∧
  (ResumeArcadeUpdate ∈ callbacks st →
     is_Some (pause_start_time (app st)) ∧ is_Some (arcade_start_time (app st))).

#[global] Instance callback_eq_dec : EqDecision callback.
Proof. solve_decision. Defined.

(** The number of pending calls of [cb]. *)
Definition pending (cb : callback) (st : State) : nat :=
  length (filter (λ t, t.2 = cb) (timers (app st))).

(** The mode that an event enters from the menu, and the number of times a
    mode is entered. *)
Definition enters (e : event) : option Mode :=
  match e with
  | PressExploreMode _ => Some Explore
  | PressArcadeMode _ => Some Arcade
  | _ => None
  end.

Definition entries (m : Mode) (evs : list event) : nat :=
  length (filter (λ e, enters e = Some m) evs).

(** The ranges of the fields of a Python [datetime]. *)
Definition valid_datetime (d : datetime) : Prop :=
  (1 ≤ year d ≤ 9999)%N ∧ (1 ≤ month d ≤ 12)%N ∧ (1 ≤ day d ≤ 31)%N ∧
  (hour d < 24)%N ∧ (minute d < 60)%N ∧ (second d < 60)%N ∧
  (microsecond d < 1000000)%N.

(** The reading of the clock down to the second. *)
Definition whole_second (d : datetime) : datetime :=
  Datetime (year d) (month d) (day d) (hour d) (minute d) (second d) 0.

(** The buffer holds a reference that has been allocated. *)
Definition live_buffer (w : World) : Prop :=
  ∀ g, global_frame w = Some g → (g < next_ref w)%nat.

(** Arrays that exist are not written to, and references are not reused. *)
Definition keeps_arrays (w w' : World) : Prop :=
  (next_ref w ≤ next_ref w')%nat ∧
  ∀ r, (r < next_ref w)%nat → deref w' r = deref w r.

(** What the storage holds and what the logs say agree: two storage calls
    for each call of the classifier, and every file is an image that was
    classified, under one of the two folders, with no space in its name. *)
Definition store_ok (w : World) : Prop :=
  length (storage_log w) = (2 * length (classifier_log w))%nat ∧
  ∀ p img, files w !! p = Some img →
    img ∈ classifier_log w ∧
    Str.contains " " p = false ∧
    Str.starts_with "captured_birds/" p || Str.starts_with "arcade_birds/" p = true.

(** The text drawn on the result of a capture. *)
Definition result_text (res : string * number) : display_text :=
  if bool_decide (res.1 ≠ "Unknown") then Identified res.1 res.2 else NoBird.

(** A label that may be collected. *)
Definition collectable (l : string) : Prop :=
  l ≠ "Unknown" ∧ ¬ Str.contains_ci "looney" l.

(** The events that can happen while a result is displayed in Explore mode:
    all but the resume callback and the Back button. *)
Definition keeps_explore_display (st : State) (e : event) : bool :=
  match e with
  | PressExploreBack => false
  | Fire i _ =>
      match timers (app st) !! i with
      | Some (_, ResumeExplore) | Some (_, BackToMenu) => false
      | _ => true
      end
  | _ => true
  end.

(** More states of the concrete runs: a capture in the first session, and
    the first session a second after its time is up. *)
Definition first_capture : State := demo_run [ClickArcadeLabel] arcade_started.

Definition time_is_up : State :=
  demo_run [Elapse 61000000 (Datetime 2024 5 17 12 1 8 250000)] arcade_started.

(** A result on the screen in Explore mode, and what happens in the next
    second: the user clicks again and the camera reads another frame. *)
Definition explore_result : State :=
  demo_run [PressExploreMode false; ClickExploreLabel] (demo_boot (Some owl_frame)).

Definition explore_display : list event :=
  [Elapse 1000000 (at_second 8 250000); ClickExploreLabel; CameraCycle (Some robin_frame)].

Definition explore_displayed : State := demo_run explore_display explore_result.

Definition first_displayed : State := demo_run two_second_display first_capture.

(** Arcade mode entered while the camera has not read a frame yet. *)
Definition arcade_without_frame : State :=
  demo_run [PressArcadeMode false] (demo_boot None).

(** ** Facts on strings *)

Lemma starts_with_app (p s : string) :
  Str.starts_with p s = true ↔ ∃ r, s = p +:+ r.
Proof.
  revert s. induction p as [|a p IH]; intros s; simpl.
  - split; [intros _; by exists s | done].
  - destruct s as [|b s]; simpl.
    + split; [done | intros [r Hr]; discriminate].
    + rewrite andb_true_iff, bool_decide_eq_true, IH. split.
      * intros [-> [r ->]]. by exists r.
      * intros [r Hr]. injection Hr as -> ->. split; [done | by exists r].
Qed.

Lemma contains_app (needle hay : string) :
  Str.contains needle hay = true ↔ ∃ pre post, hay = pre +:+ needle +:+ post.
Proof.
  induction hay as [|c hay IH]; simpl.
  - rewrite orb_false_r, starts_with_app. split.
    + intros [r Hr]. by exists "", r.
    + intros (pre & post & H). destruct pre; simpl in H; [by exists post | discriminate].
  - rewrite orb_true_iff, starts_with_app, IH. split.
    + intros [[r Hr] | (pre & post & ->)].
      * by exists "", r.
      * by exists (String c pre), post.
    + intros (pre & post & H). destruct pre as [|a pre]; simpl in H.
      * left. by exists post.
      * right. injection H as -> ->. by exists pre, post.
Qed.

Lemma lower_app (s t : string) : Str.lower (s +:+ t) = Str.lower s +:+ Str.lower t.
Proof. induction s as [|c s IH]; simpl; [done | by rewrite IH]. Qed.

Lemma lower_split (s u v : string) :
  Str.lower s = u +:+ v → ∃ s1 s2, s = s1 +:+ s2 ∧ Str.lower s1 = u ∧ Str.lower s2 = v.
Proof.
  revert s. induction u as [|a u IH]; intros s H; simpl in H.
  - by exists "", s.
  - destruct s as [|c s]; simpl in H; [discriminate |].
    injection H as Ha Hs. destruct (IH _ Hs) as (s1 & s2 & -> & H1 & H2).
    exists (String c s1), s2. simpl. by rewrite Ha, H1.
Qed.

(** The test of the source, ["looney" in label.lower()], is the
    case-insensitive substring match. *)
Lemma contains_lower_ci (needle s : string) :
  Str.lower needle = needle →
  Str.contains needle (Str.lower s) = true ↔ Str.contains_ci needle s.
Proof.
  intros Hn. rewrite contains_app. unfold Str.contains_ci. split.
  - intros (pre & post & H).
    apply lower_split in H as (s1 & s2 & -> & H1 & H2).
    apply lower_split in H2 as (s3 & s4 & -> & H3 & H4).
    exists s1, s3, s4. split; [done | by rewrite H3, Hn].
  - intros (pre & mid & post & -> & H).
    exists (Str.lower pre), (Str.lower post).
    by rewrite !lower_app, H, Hn.
Qed.

(** ** Facts on floats *)

Lemma SFcompare_Lt_swap (x y : spec_float) :
  SFcompare x y = Some Lt → SFcompare y x = Some Gt.
Proof.
  destruct x as [sx|sx| |sx mx ex], y as [sy|sy| |sy my ey]; simpl;
    try discriminate;
    try (destruct sx; try destruct sy; simpl; congruence);
    try (destruct sy; simpl; congruence).
  pose proof (Pos.compare_cont_antisym mx my Eq) as A. simpl in A.
  destruct sx, sy; try congruence;
    rewrite (Z.compare_antisym ex ey);
    destruct (ex ?= ey)%Z; simpl; try congruence;
    rewrite <- A; destruct (Pos.compare_cont Eq mx my); simpl; congruence.
Qed.

(** [x < y] excludes [y <= x], also for the floats that are not numbers. *)
Lemma ltb_not_leb (x y : float) :
  PrimFloat.ltb x y = true → PrimFloat.leb y x = false.
Proof.
  rewrite ltb_spec, leb_spec. unfold SFltb, SFleb.
  destruct (SFcompare (Prim2SF x) (Prim2SF y)) as [[]|] eqn:E; try discriminate.
  intros _. by rewrite (SFcompare_Lt_swap _ _ E).
Qed.

(** ** The heap *)

Lemma deref_alloc (v : frame) (w : World) :
  deref (np_alloc v w).2 (next_ref w) = v.
Proof. unfold deref. simpl. apply lookup_total_insert_eq. Qed.

Lemma deref_imwrite (path : string) (r r' : ref) (w : World) :
  deref (cv2_imwrite path r w) r' = deref w r'.
Proof. reflexivity. Qed.

Lemma deref_alloc_old (v : frame) (w : World) (r : ref) :
  r ≠ next_ref w → deref (np_alloc v w).2 r = deref w r.
Proof. intros Hr. unfold deref. simpl. by apply lookup_total_insert_ne. Qed.

Lemma deref_mutate_other (f : frame → frame) (w : World) (r r' : ref) :
  r ≠ r' → deref (np_mutate r f w) r' = deref w r'.
Proof. intros Hr. unfold deref. simpl. by apply lookup_total_alter_ne. Qed.

(** ** The decision policy *)

Lemma resolve_prediction_top (top : prediction) (rest : list prediction) :
  let conf := PrimFloat.mul (score top) hundred in
  (resolve_prediction (top :: rest)).2 = PyFloat conf ∧
  (lt50 (PyFloat conf) = true → (resolve_prediction (top :: rest)).1 = "Unknown") ∧
  (ge50 (PyFloat conf) = true → Str.contains_ci "looney" (label top) →
     (resolve_prediction (top :: rest)).1 = "Unknown") ∧
  (ge50 (PyFloat conf) = true → ¬ Str.contains_ci "looney" (label top) →
     (resolve_prediction (top :: rest)).1 = label top).
Proof.
  simpl. pose proof (contains_lower_ci "looney" (label top) eq_refl) as Hci.
  destruct (PrimFloat.leb fifty (PrimFloat.mul (score top) hundred)) eqn:Hge;
    destruct (Str.contains "looney" (Str.lower (label top))) eqn:Hin; simpl;
    repeat split; try done.
  - intros _ Hno. exfalso. apply Hno, Hci. done.
  - intros Hlt. apply ltb_not_leb in Hlt. unfold fifty, hundred in *. congruence.
  - intros _ Hyes. apply Hci in Hyes. congruence.
Qed.

(** A label that is resolved is never ["Unknown"] with a confidence below
    50: the second test of [on_arcade_capture] follows from the first. *)
Lemma resolve_prediction_known (ps : list prediction) :
  (resolve_prediction ps).1 ≠ "Unknown" → ge50 (resolve_prediction ps).2 = true.
Proof.
  destruct ps as [|top rest]; simpl; [done |].
  destruct (PrimFloat.leb fifty (PrimFloat.mul (score top) hundred)) eqn:Hge;
    destruct (Str.contains "looney" (Str.lower (label top))); simpl; done.
Qed.

Section Capture.

Context (classifier : frame → list prediction).

(** What [capture_and_identify] returns and does when a frame is
    buffered. *)
Lemma capture_and_identify_some (mode : string) (w : World) (g : ref) :
  global_frame w = Some g →
  let img := deref w g in
  let ts := strftime (wall w) in
  let res := resolve_prediction (classifier img) in
  let raw := mode +:+ "_birds/bird_" +:+ ts +:+ ".jpg" in
  let final := mode +:+ "_birds/" +:+ Str.replace_char " " "_" res.1 +:+ "_" +:+ ts +:+ ".jpg" in
  capture_and_identify classifier mode w =
    ((res.1, res.2, Some (next_ref w)),
     os_rename raw final (log_classifier img (cv2_imwrite raw (next_ref w) (np_copy g w).2))).
Proof.
  intros Hg. unfold capture_and_identify. rewrite Hg.
  change (np_copy g w) with (next_ref w, (np_alloc (deref w g) w).2).
  cbv beta iota zeta. change (wall (np_alloc (deref w g) w).2) with (wall w).
  rewrite !deref_imwrite, !deref_alloc.
  by destruct (resolve_prediction (classifier (deref w g))).
Qed.

(** C1. With a frame in the buffer, [capture_and_identify] resolves an
    empty prediction list to ["Unknown"] with confidence [0]; for a
    non-empty list the confidence returned is always that of the top
    prediction, [score * 100], and the label is ["Unknown"] when this
    confidence is below 50, ["Unknown"] when it is at least 50 and the top
    label contains "looney" in any case, and the top label otherwise. *)
Theorem capture_decision_policy (mode : string) (w : World) (g : ref) :
  global_frame w = Some g →
  let bird_name := (capture_and_identify classifier mode w).1.1.1 in
  let confidence := (capture_and_identify classifier mode w).1.1.2 in
  match classifier (deref w g) with
  | [] => bird_name = "Unknown" ∧ confidence = PyInt 0
  | top :: _ =>
      let conf := PrimFloat.mul (score top) hundred in
      confidence = PyFloat conf ∧
      (lt50 (PyFloat conf) = true → bird_name = "Unknown") ∧
      (ge50 (PyFloat conf) = true → Str.contains_ci "looney" (label top) →
         bird_name = "Unknown") ∧
      (ge50 (PyFloat conf) = true → ¬ Str.contains_ci "looney" (label top) →
         bird_name = label top)
  end.
Proof.
  intros Hg. rewrite (capture_and_identify_some mode w g Hg). cbv zeta. simpl fst. simpl snd.
  destruct (classifier (deref w g)) as [|top rest]; [done |].
  apply resolve_prediction_top.
Qed.

(** C2. With an empty buffer [capture_and_identify] returns
    [("Unknown", 0, None)] and leaves the world as it was: no file is
    written, no storage call is made, the classifier is not called. *)
Theorem capture_empty_buffer (mode : string) (w : World) :
  global_frame w = None →
  (capture_and_identify classifier mode w).1 = ("Unknown", PyInt 0, None) ∧
  (capture_and_identify classifier mode w).2 = w ∧
  files (capture_and_identify classifier mode w).2 = files w ∧
  storage_log (capture_and_identify classifier mode w).2 = storage_log w ∧
  classifier_log (capture_and_identify classifier mode w).2 = classifier_log w.
Proof.
  intros Hg. unfold capture_and_identify. rewrite Hg. done.
Qed.

End Capture.

(** ** The frame buffer *)

Lemma buffered_publish (src : ref) (w : World) :
  buffered (publish src w) = Some (deref w src) ∧
  global_frame (publish src w) = Some (next_ref w) ∧
  next_ref (publish src w) = S (next_ref w).
Proof.
  unfold publish, np_copy, buffered. simpl. split; [| done].
  f_equal. apply (deref_alloc (deref w src) w).
Qed.

Lemma deref_publish_old (src r : ref) (w : World) :
  (r < next_ref w)%nat → deref (publish src w) r = deref w r.
Proof.
  intros Hr. unfold publish, np_copy. simpl.
  change (deref (np_alloc (deref w src) w).2 r = deref w r).
  apply deref_alloc_old. lia.
Qed.

Lemma publish_all_old (srcs : list ref) (r : ref) (w : World) :
  (r < next_ref w)%nat →
  deref (publish_all srcs w) r = deref w r ∧
  (next_ref w ≤ next_ref (publish_all srcs w))%nat.
Proof.
  revert w. induction srcs as [|src srcs IH]; intros w Hr; simpl; [done |].
  destruct (buffered_publish src w) as (_ & _ & Hn).
  destruct (IH (publish src w)) as [Hd Hle]; [lia |].
  unfold publish_all in *. rewrite Hd, deref_publish_old by done. split; [done | lia].
Qed.

Lemma publish_all_snoc (srcs : list ref) (src : ref) (w : World) :
  publish_all (srcs ++ [src]) w = publish src (publish_all srcs w).
Proof. unfold publish_all. by rewrite foldl_app. Qed.

Lemma buffered_camera_cycle (r : option frame) (w : World) :
  buffered (camera_cycle r w) =
    match r with Some v => Some v | None => buffered w end.
Proof.
  destruct r as [v|]; [| done].
  unfold camera_cycle, cap_read.
  change (np_alloc v w) with (next_ref w, (np_alloc v w).2). cbv beta iota.
  destruct (buffered_publish (next_ref w) (np_alloc v w).2) as (-> & _).
  by rewrite deref_alloc.
Qed.

Lemma buffered_camera_run (reads : list (option frame)) (w : World) :
  buffered (camera_run reads w) =
    foldl (λ acc r, match r with Some v => Some v | None => acc end) (buffered w) reads.
Proof.
  revert w. induction reads as [|r reads IH]; intros w; simpl; [done |].
  unfold camera_run in *. simpl. by rewrite IH, buffered_camera_cycle.
Qed.

(** C7. A cycle of the acquisition loop that reads a frame publishes a copy
    of it, in an array of its own; a cycle whose read fails changes nothing;
    so after the first read of [CameraThread.__init__] and any number of
    cycles the buffer holds the last frame that was read, and is empty if
    no read succeeded. *)
Theorem acquisition_keeps_last_frame
    (first : option frame) (reads : list (option frame)) (w : World) :
  (∀ v w', buffered (camera_cycle (Some v) w') = Some v ∧
           deref (camera_cycle (Some v) w') (next_ref w') = v ∧
           global_frame (camera_cycle (Some v) w') = Some (S (next_ref w'))) ∧
  (∀ w', camera_cycle None w' = w') ∧
  buffered (camera_run reads (camera_init first w)) = last_acquired (first :: reads).
Proof.
  split; [| split].
  - intros v w'. split; [apply (buffered_camera_cycle (Some v)) |].
    unfold camera_cycle, cap_read.
    change (np_alloc v w') with (next_ref w', (np_alloc v w').2). cbv beta iota.
    destruct (buffered_publish (next_ref w') (np_alloc v w').2) as (_ & Hg & _).
    split; [| exact Hg].
    rewrite deref_publish_old by (simpl; lia). apply deref_alloc.
  - done.
  - rewrite buffered_camera_run. unfold last_acquired. simpl. f_equal.
    destruct first as [v|]; [| done].
    apply (buffered_camera_cycle (Some v) w).
Qed.

(** C8. After any sequence of publications, a snapshot returns a new array
    whose pixels are those of the array published last; the buffer is
    neither that source array nor the array returned, so that an update in
    place of either leaves the buffered frame as it was. *)
Theorem snapshot_returns_last_published
    (srcs : list ref) (last : ref) (w : World) (f : frame → frame) :
  (last < next_ref w)%nat →
  let w1 := publish_all (srcs ++ [last]) w in
  ∃ c,
    (snapshot w1).1 = Some c ∧
    deref (snapshot w1).2 c = deref w last ∧
    buffered w1 = Some (deref w last) ∧
    buffered (snapshot w1).2 = buffered w1 ∧
    global_frame w1 ≠ Some last ∧
    global_frame (snapshot w1).2 ≠ Some c ∧
    buffered (np_mutate last f w1) = buffered w1 ∧
    buffered (np_mutate c f (snapshot w1).2) = buffered (snapshot w1).2.
Proof.
  intros Hlast w1. subst w1. rewrite publish_all_snoc.
  destruct (publish_all_old srcs last w Hlast) as [Hd Hle].
  remember (publish_all srcs w) as w0 eqn:Ew0. clear Ew0.
  destruct (buffered_publish last w0) as (Hb & Hg & Hn).
  remember (publish last w0) as w1 eqn:Ew1. clear Ew1.
  exists (next_ref w1).
  assert (snapshot w1 = (Some (next_ref w1), (np_alloc (deref w1 (next_ref w0)) w1).2)) as Hs.
  { unfold snapshot. by rewrite Hg. }
  assert (deref w1 (next_ref w0) = deref w last) as Hc.
  { unfold buffered in Hb. rewrite Hg in Hb. simpl in Hb. congruence. }
  rewrite Hs. simpl fst. simpl snd. rewrite Hc.
  assert (buffered (np_alloc (deref w last) w1).2 = buffered w1) as Hsame.
  { unfold buffered. simpl global_frame. rewrite Hg. simpl. f_equal.
    apply deref_alloc_old. lia. }
  repeat split.
  - apply deref_alloc.
  - by rewrite Hb, Hd.
  - done.
  - rewrite Hg. intros [= H]. lia.
  - simpl. rewrite Hg. intros [= H]. lia.
  - unfold buffered. simpl global_frame. rewrite Hg. simpl. f_equal.
    apply deref_mutate_other. lia.
  - unfold buffered. simpl global_frame. rewrite Hg. simpl. f_equal.
    apply (deref_mutate_other f (np_alloc (deref w last) w1).2). lia.
Qed.

(** ** The handlers of the two modes *)

Section Machine.

Context (classifier : frame → list prediction).
Context (put_text : display_text → frame → frame).

Abbreviation capture := (capture_and_identify classifier).
Abbreviation overlay := (overlay_text_on_frame put_text).

(** Drawing the text neither stores anything nor calls the classifier. *)
Lemma overlay_world (r : ref) (t : display_text) (w : World) :
  files (overlay r t w).2 = files w ∧
  storage_log (overlay r t w).2 = storage_log w ∧
  classifier_log (overlay r t w).2 = classifier_log w ∧
  global_frame (overlay r t w).2 = global_frame w ∧
  clock (overlay r t w).2 = clock w ∧
  wall (overlay r t w).2 = wall w.
Proof. done. Qed.

(** An Explore capture that is accepted, with a frame in the buffer. *)
Lemma on_explore_capture_accepted (st : State) (g : ref) :
  freeze_explore (app st) = false →
  global_frame (world st) = Some g →
  let w := world st in
  let res := resolve_prediction (classifier (deref w g)) in
  let text :=
    if bool_decide (res.1 ≠ "Unknown") then Identified res.1 res.2 else NoBird in
  let ov := overlay (next_ref w) text (capture "captured" w).2 in
  on_explore_capture classifier put_text st =
    after 2000 ResumeExplore
      (with_app (set_explore_label (Some ov.1))
         (with_world ov.2 (with_app (set_freeze_explore true) st))).
Proof.
  intros Hf Hg. cbv zeta. unfold on_explore_capture. rewrite Hf.
  cbn [world with_app].
  rewrite (capture_and_identify_some classifier "captured" (world st) g Hg).
  cbv zeta. cbn [fst snd world with_world].
  destruct (resolve_prediction (classifier (deref (world st) g))) as [name conf].
  cbn [fst snd].
  by destruct (overlay _ _ _).
Qed.

(** An Arcade capture that is accepted, with a frame in the buffer. *)
Lemma on_arcade_capture_accepted (st : State) (g : ref) :
  arcade_running (app st) = true →
  freeze_arcade (app st) = false →
  global_frame (world st) = Some g →
  let w := world st in
  let res := resolve_prediction (classifier (deref w g)) in
  let accepted := bool_decide (res.1 ≠ "Unknown") && ge50 res.2 in
  let novel := bool_decide (res.1 ∉ arcade_birds (app st)) in
  let text := if accepted then Identified res.1 res.2 else NoBird in
  let ov := overlay (next_ref w) text (capture "arcade" w).2 in
  on_arcade_capture classifier put_text st =
    after 2000 ResumeArcadeUpdate
      (with_app (set_arcade_label (Some ov.1))
         (with_world ov.2
            (with_app (λ a, if accepted && novel
                            then set_arcade_score (arcade_score a + 1)
                                   (set_arcade_birds ({[res.1]} ∪ arcade_birds a) a)
                            else a)
               (with_app (set_pause_start_time (Some (clock w)))
                  (with_app (set_freeze_arcade true) st))))).
Proof.
  intros Hr Hf Hg. cbv zeta. unfold on_arcade_capture. rewrite Hr, Hf.
  cbn [negb orb world with_app].
  rewrite (capture_and_identify_some classifier "arcade" (world st) g Hg).
  cbv zeta. cbn [fst snd world with_world app].
  destruct (resolve_prediction (classifier (deref (world st) g))) as [name conf].
  cbn [fst snd arcade_birds app with_app set_pause_start_time set_freeze_arcade].
  destruct (bool_decide (name ≠ "Unknown") && ge50 conf);
    [destruct (bool_decide (name ∉ arcade_birds (app st))) |];
    cbn [andb world with_app with_world]; by destruct (overlay _ _ _).
Qed.

(** Without a frame in the buffer a capture request changes nothing. *)
Lemma on_explore_capture_empty (st : State) :
  freeze_explore (app st) = false →
  global_frame (world st) = None →
  on_explore_capture classifier put_text st = st.
Proof.
  intros Hf Hg. unfold on_explore_capture, capture_and_identify. rewrite Hf.
  cbn [world with_app]. rewrite Hg. destruct st as [w a]. destruct a. simpl in *.
  by subst.
Qed.

Lemma on_arcade_capture_empty (st : State) :
  arcade_running (app st) = true →
  freeze_arcade (app st) = false →
  global_frame (world st) = None →
  on_arcade_capture classifier put_text st =
    with_app (set_pause_start_time (Some (clock (world st)))) st.
Proof.
  intros Hr Hf Hg. unfold on_arcade_capture, capture_and_identify. rewrite Hr, Hf.
  cbn [negb orb world with_app]. rewrite Hg. destruct st as [w a]. destruct a. simpl in *.
  by subst.
Qed.

(** The storage calls of a capture, and the files after it. *)
Lemma capture_storage (mode : string) (w : World) (g : ref) :
  global_frame w = Some g →
  let img := deref w g in
  let ts := strftime (wall w) in
  let safe := Str.replace_char " " "_" (resolve_prediction (classifier img)).1 in
  let raw := mode +:+ "_birds/bird_" +:+ ts +:+ ".jpg" in
  let final := mode +:+ "_birds/" +:+ safe +:+ "_" +:+ ts +:+ ".jpg" in
  storage_log (capture mode w).2 = (storage_log w ++ [Imwrite raw img; Rename raw final])%list ∧
  files (capture mode w).2 = <[final := img]> (delete raw (<[raw := img]> (files w))) ∧
  classifier_log (capture mode w).2 = (classifier_log w ++ [img])%list.
Proof.
  intros Hg. cbv zeta. rewrite (capture_and_identify_some classifier mode w g Hg).
  cbv zeta. cbn [snd]. unfold os_rename, log_classifier, cv2_imwrite, np_copy.
  cbn [storage_log files classifier_log heap next_ref global_frame clock wall snd].
  change (deref (np_alloc (deref w g) w).2 (next_ref w)) with
    (deref (np_alloc (deref w g) w).2 (next_ref w)).
  rewrite !deref_alloc. simpl files. simpl storage_log. simpl classifier_log.
  rewrite lookup_insert_eq. by rewrite <- app_assoc.
Qed.

(** C3. A capture with a frame in the buffer stores the frame under the
    folder of its mode, [captured_birds] in Explore and [arcade_birds] in
    Arcade: it is first written as [bird_<timestamp>.jpg], then renamed to
    [<label>_<timestamp>.jpg], where the label is the resolved one with its
    spaces replaced by underscores and the timestamp is the same, a reading
    of the wall clock that ignores the microseconds. *)
Theorem capture_is_stored_by_mode (st : State) (g : ref) :
  global_frame (world st) = Some g →
  let w := world st in
  let img := deref w g in
  let ts := strftime (wall w) in
  let name := (resolve_prediction (classifier img)).1 in
  let safe := Str.replace_char " " "_" name in
  let stored (dir : string) (st' : State) :=
    let raw := dir +:+ "/bird_" +:+ ts +:+ ".jpg" in
    let final := dir +:+ "/" +:+ safe +:+ "_" +:+ ts +:+ ".jpg" in
    storage_log (world st') = (storage_log w ++ [Imwrite raw img; Rename raw final])%list ∧
    files (world st') !! final = Some img ∧
    (raw ≠ final → files (world st') !! raw = None) in
  (freeze_explore (app st) = false →
     stored "captured_birds" (on_explore_capture classifier put_text st)) ∧
  (arcade_running (app st) = true → freeze_arcade (app st) = false →
     stored "arcade_birds" (on_arcade_capture classifier put_text st)) ∧
  (∀ us, strftime (Datetime (year (wall w)) (month (wall w)) (day (wall w))
                     (hour (wall w)) (minute (wall w)) (second (wall w)) us) = ts).
Proof.
  intros Hg. cbv zeta. split; [| split]; [| | done].
  - intros Hf. rewrite (on_explore_capture_accepted st g Hf Hg). cbv zeta.
    cbn [world after with_app with_world].
    destruct (capture_storage "captured" (world st) g Hg) as (Hlog & Hfiles & _).
    destruct (overlay_world (next_ref (world st))
                (if bool_decide ((resolve_prediction (classifier (deref (world st) g))).1
                                 ≠ "Unknown")
                 then Identified (resolve_prediction (classifier (deref (world st) g))).1
                        (resolve_prediction (classifier (deref (world st) g))).2
                 else NoBird)
                (capture "captured" (world st)).2) as (-> & -> & _).
    rewrite Hlog, Hfiles. split; [done |]. split.
    + apply lookup_insert_eq.
    + intros Hne. rewrite lookup_insert_ne by (intros E; apply Hne; by rewrite <- E).
      apply lookup_delete_eq.
  - intros Hr Hf. rewrite (on_arcade_capture_accepted st g Hr Hf Hg). cbv zeta.
    cbn [world after with_app with_world].
    destruct (capture_storage "arcade" (world st) g Hg) as (Hlog & Hfiles & _).
    destruct (overlay_world (next_ref (world st))
                (if bool_decide ((resolve_prediction (classifier (deref (world st) g))).1
                                 ≠ "Unknown")
                    && ge50 (resolve_prediction (classifier (deref (world st) g))).2
                 then Identified (resolve_prediction (classifier (deref (world st) g))).1
                        (resolve_prediction (classifier (deref (world st) g))).2
                 else NoBird)
                (capture "arcade" (world st)).2) as (-> & -> & _).
    rewrite Hlog, Hfiles. split; [done |]. split.
    + apply lookup_insert_eq.
    + intros Hne. rewrite lookup_insert_ne by (intros E; apply Hne; by rewrite <- E).
      apply lookup_delete_eq.
Qed.

(** C6. A capture request made while the freeze flag of its mode is set,
    and an Arcade capture request made while no session is running, returns
    at once: the whole state, files and logs included, is what it was.
    The poll of the button does not even forward such a request, it only
    schedules its next run. *)
Theorem frozen_capture_is_noop (st : State) (gpio_low : bool) :
  (freeze_explore (app st) = true →
     on_explore_capture classifier put_text st = st ∧
     poll_button_explore classifier put_text gpio_low st = after 100 PollButtonExplore st) ∧
  (freeze_arcade (app st) = true ∨ arcade_running (app st) = false →
     on_arcade_capture classifier put_text st = st ∧
     poll_button_arcade classifier put_text gpio_low st = after 100 PollButtonArcade st).
Proof.
  split.
  - intros Hf. unfold poll_button_explore, on_explore_capture. rewrite Hf.
    split; [done |]. rewrite andb_false_r. by case_bool_decide.
  - intros Hf. unfold poll_button_arcade, on_arcade_capture.
    destruct Hf as [-> | ->]; cbn [negb orb]; rewrite ?orb_true_r; [| done].
    split; [done |]. rewrite andb_false_r. by destruct (_ || _).
Qed.

(** *** What the handlers do to the score and the collection *)

Ltac crush :=
  repeat first
    [ progress cbn [app world with_app with_world after tally arcade_score arcade_birds
                    set_shown set_freeze_explore set_arcade_running set_freeze_arcade
                    set_arcade_start_time set_pause_start_time set_arcade_score
                    set_arcade_birds set_explore_label set_arcade_label
                    set_arcade_info_label set_timers fst snd]
    | match goal with
      | |- context [if ?b then _ else _] => destruct b
      | |- context [let '(_, _) := ?x in _] => destruct x
      | |- context [match ?x with _ => _ end] => destruct x
      end ];
  try done.

Lemma on_explore_capture_tally st : tally (on_explore_capture classifier put_text st) = tally st.
Proof. unfold on_explore_capture. crush. Qed.
Lemma update_explore_frame_tally st : tally (update_explore_frame st) = tally st.
Proof. unfold update_explore_frame. crush. Qed.
Lemma show_arcade_final_tally st : tally (show_arcade_final put_text st) = tally st.
Proof. unfold show_arcade_final. crush. Qed.
Lemma update_arcade_frame_tally st st' : update_arcade_frame put_text st = Some st' → tally st' = tally st.
Proof.
  unfold update_arcade_frame.
  destruct (negb _ || _); [by intros [= <-] |].
  destruct (freeze_arcade _); [by intros [= <-] |].
  destruct (arcade_start_time _); [| done].
  destruct (_ <=? 0); intros [= <-]; [by rewrite show_arcade_final_tally | crush].
Qed.

Lemma on_arcade_capture_tally st :
  tally (on_arcade_capture classifier put_text st) = bump (accepted_label classifier st) (tally st).
Proof.
  unfold accepted_label.
  destruct (arcade_running (app st)) eqn:Hr; cycle 1.
  { unfold on_arcade_capture. by rewrite Hr. }
  destruct (freeze_arcade (app st)) eqn:Hf.
  { unfold on_arcade_capture. by rewrite Hr, Hf. }
  cbn [negb orb].
  destruct (global_frame (world st)) as [g|] eqn:Hg; cycle 1.
  { by rewrite on_arcade_capture_empty. }
  rewrite (on_arcade_capture_accepted st g Hr Hf Hg). cbv zeta.
  destruct (resolve_prediction (classifier (deref (world st) g))) as [name conf].
  cbn [fst snd]. unfold tally, bump.
  cbn [app world with_app with_world after arcade_score arcade_birds
       set_freeze_arcade set_pause_start_time set_arcade_label set_timers].
  destruct (bool_decide (name ≠ "Unknown") && ge50 conf); cbn [andb fst snd]; [| done].
  destruct (decide (name ∈ arcade_birds (app st))) as [Hin | Hnin].
  - rewrite (bool_decide_false (name ∉ _)) by (intros H; by apply H).
    rewrite (bool_decide_true (name ∈ _)) by done. cbn.
    f_equal; [lia |]. symmetry. by apply subseteq_union_1_L, singleton_subseteq_l.
  - rewrite (bool_decide_true (name ∉ _)) by done.
    by rewrite (bool_decide_false (name ∈ _)) by done.
Qed.

Lemma poll_button_explore_tally low st : tally (poll_button_explore classifier put_text low st) = tally st.
Proof.
  unfold poll_button_explore.
  destruct (bool_decide _); [done |]. destruct (low && _); [| done].
  apply on_explore_capture_tally.
Qed.

Lemma start_explore_tally low st : tally (start_explore classifier put_text low st) = tally st.
Proof.
  unfold start_explore. cbv zeta.
  by rewrite poll_button_explore_tally, update_explore_frame_tally.
Qed.

Lemma accepted_label_timers q st :
  accepted_label classifier (with_app (set_timers q) st) = accepted_label classifier st.
Proof. done. Qed.

Lemma poll_button_arcade_tally low st :
  tally (poll_button_arcade classifier put_text low st) =
    bump (if low && bool_decide (shown (app st) = Arcade) then accepted_label classifier st else None)
         (tally st).
Proof.
  unfold poll_button_arcade.
  destruct (arcade_running (app st)) eqn:Hr; cycle 1.
  { cbn [negb orb]. unfold accepted_label. rewrite Hr. cbn [negb orb]. by destruct (low && _). }
  cbn [negb orb]. destruct (decide (shown (app st) = Arcade)) as [Hs | Hs]; cycle 1.
  { rewrite (bool_decide_true (_ ≠ _)) by done.
    rewrite (bool_decide_false (_ = _)) by done. by rewrite andb_false_r. }
  rewrite (bool_decide_false (_ ≠ _)) by (intros H; by apply H).
  rewrite (bool_decide_true (_ = _)) by done. rewrite andb_true_r.
  destruct low; cbn [andb].
  - destruct (freeze_arcade (app st)) eqn:Hf; cbn [negb].
    + unfold accepted_label. rewrite Hr, Hf. done.
    + change (tally (on_arcade_capture classifier put_text st) = bump (accepted_label classifier st) (tally st)).
      apply on_arcade_capture_tally.
  - done.
Qed.

Lemma end_arcade_early_tally st : tally (end_arcade_early put_text st) = tally st.
Proof.
  unfold end_arcade_early. destruct (arcade_running (app st)); [| done].
  by rewrite show_arcade_final_tally.
Qed.

Lemma resume_arcade_update_tally st st' :
  resume_arcade_update st = Some st' → tally st' = tally st.
Proof.
  unfold resume_arcade_update.
  destruct (pause_start_time (app st)), (arcade_start_time (app st)); try done. by intros [= <-].
Qed.

(** A callback other than the poll of the Arcade button leaves the score
    and the collection alone. *)
Lemma run_callback_tally cb low st :
  tally (run_callback classifier put_text cb low st) =
    bump (match cb with
          | PollButtonArcade =>
              if low && bool_decide (shown (app st) = Arcade)
              then accepted_label classifier st else None
          | _ => None
          end) (tally st).
Proof.
  destruct cb; cbn [run_callback]; try done.
  - apply update_explore_frame_tally.
  - apply poll_button_explore_tally.
  - destruct (resume_arcade_update st) eqn:E; [| done].
    apply (resume_arcade_update_tally _ _ E).
  - apply poll_button_arcade_tally.
  - destruct (update_arcade_frame put_text st) eqn:E; [| done].
    apply (update_arcade_frame_tally _ _ E).
Qed.

(** The score and the collection after one event of a session. *)
Lemma step_tally e st st' :
  same_session st e = true →
  step classifier put_text e st = Some st' →
  tally st' = bump (identified_by classifier e st) (tally st).
Proof.
  intros Hs. destruct e; try done; cbn [step identified_by].
  - case_bool_decide; [| done]. by intros [= <-].
  - by intros [= <-].
  - case_bool_decide; [| done]. intros [= <-]. apply start_explore_tally.
  - case_bool_decide; [| done]. intros [= <-]. apply on_explore_capture_tally.
  - case_bool_decide; [| done]. by intros [= <-].
  - case_bool_decide; [| done]. intros [= <-]. apply on_arcade_capture_tally.
  - case_bool_decide; [| done]. intros [= <-]. apply end_arcade_early_tally.
  - destruct (timers (app st) !! i) as [[due cb]|] eqn:Ht; [| done].
    case_bool_decide; [| done]. intros [= <-].
    rewrite run_callback_tally.
    destruct cb, gpio_low; try done.
Qed.

(** *** The score and the collection *)

Lemma bump_card (o : option string) (t : Z * gset string) :
  t.1 = Z.of_nat (size t.2) → (bump o t).1 = Z.of_nat (size (bump o t).2).
Proof.
  destruct t as [n s], o as [l|]; cbn [bump fst snd]; [| done]. intros ->.
  case_bool_decide as Hl.
  - rewrite (subseteq_union_1_L {[l]} s) by (by apply singleton_subseteq_l). lia.
  - rewrite size_union by (by apply disjoint_singleton_l). rewrite size_singleton. lia.
Qed.

Lemma bump_cases (o : option string) (t : Z * gset string) :
  bump o t = t ∨ ∃ l, (l ∉ t.2) ∧ bump o t = (t.1 + 1, {[l]} ∪ t.2).
Proof.
  destruct t as [n s], o as [l|]; cbn [bump fst snd]; [| by left].
  case_bool_decide as Hl.
  - left. rewrite (subseteq_union_1_L {[l]} s) by (by apply singleton_subseteq_l).
    by rewrite Z.add_0_r.
  - right. by exists l.
Qed.

Lemma start_arcade_tally low st st' :
  start_arcade classifier put_text low st = Some st' →
  ∃ o, tally st' = bump o (0, ∅).
Proof.
  unfold start_arcade. cbv zeta.
  destruct (update_arcade_frame put_text _) as [st3|] eqn:E; [| done].
  intros [= <-]. apply update_arcade_frame_tally in E.
  eexists. rewrite poll_button_arcade_tally, E. reflexivity.
Qed.

Lemma step_bump e st st' :
  step classifier put_text e st = Some st' →
  ∃ o, tally st' =
         bump o (match e with PressArcadeMode _ => (0, ∅) | _ => tally st end).
Proof.
  intros Hstep. destruct (same_session st e) eqn:Hs.
  - exists (identified_by classifier e st).
    rewrite (step_tally e st st' Hs Hstep). by destruct e.
  - destruct e; try done. cbn [step] in Hstep.
    case_bool_decide; [| done]. by apply start_arcade_tally in Hstep.
Qed.

Lemma run_card evs st st' :
  arcade_score (app st) = Z.of_nat (size (arcade_birds (app st))) →
  run classifier put_text evs st = Some st' →
  arcade_score (app st') = Z.of_nat (size (arcade_birds (app st'))).
Proof.
  revert st. induction evs as [|e evs IH]; intros st Hc; cbn [run].
  - by intros [= <-].
  - destruct (step classifier put_text e st) as [st1|] eqn:Hstep; [| done].
    cbn. apply IH. destruct (step_bump e st st1 Hstep) as [o Ho].
    change (arcade_score (app st1)) with (tally st1).1.
    change (arcade_birds (app st1)) with (tally st1).2.
    rewrite Ho. apply bump_card. by destruct e.
Qed.

Lemma run_while_run ok evs st st' :
  run_while classifier put_text ok evs st = Some st' →
  run classifier put_text evs st = Some st'.
Proof.
  revert st. induction evs as [|e evs IH]; intros st; cbn [run run_while]; [done |].
  destruct (ok st e); [| done].
  destruct (step classifier put_text e st) as [st1|]; [| done]. cbn. apply IH.
Qed.

Lemma session_tally evs st st' :
  run_while classifier put_text same_session evs st = Some st' →
  arcade_birds (app st') = arcade_birds (app st) ∪ identified classifier put_text evs st.
Proof.
  revert st. induction evs as [|e evs IH]; intros st; cbn [run_while identified].
  - intros [= <-]. by rewrite (right_id_L ∅ (∪)).
  - destruct (same_session st e) eqn:Hs; [| done].
    destruct (step classifier put_text e st) as [st1|] eqn:Hstep; [| done].
    cbn. intros Hrun. rewrite (IH st1 Hrun).
    pose proof (step_tally e st st1 Hs Hstep) as Ht.
    change (arcade_birds (app st1)) with (tally st1).2. rewrite Ht.
    destruct (identified_by classifier e st) as [l|]; cbn [bump snd tally]; [| done].
    by rewrite (assoc_L (∪)), (comm_L (∪) (arcade_birds (app st)) {[l]}).
Qed.

(** C4. One capture request adds to the score 1 when it identifies a label
    that is not in the collection yet, and 0 otherwise; so, from the start
    of a session and as long as Arcade mode is not entered again, the
    collection is the set of the labels identified so far and the score is
    the number of its elements. *)
Theorem arcade_score_counts_distinct_labels (evs : list event) (st st' : State) :
  arcade_score (app st) = 0 →
  arcade_birds (app st) = ∅ →
  run_while classifier put_text same_session evs st = Some st' →
  arcade_birds (app st') = identified classifier put_text evs st ∧
  arcade_score (app st') = Z.of_nat (size (identified classifier put_text evs st)) ∧
  (∀ st1,
     arcade_score (app (on_arcade_capture classifier put_text st1)) =
       arcade_score (app st1) +
       match accepted_label classifier st1 with
       | Some l => if bool_decide (l ∈ arcade_birds (app st1)) then 0 else 1
       | None => 0
       end).
Proof.
  intros H0 He Hrun. pose proof (session_tally evs st st' Hrun) as Hb.
  rewrite He, (left_id_L ∅ (∪)) in Hb. split; [done |]. split.
  - rewrite <- Hb. apply (run_card evs st st'); [by rewrite H0, He |].
    by apply run_while_run in Hrun.
  - intros st1. change (arcade_score (app (on_arcade_capture classifier put_text st1)))
      with (tally (on_arcade_capture classifier put_text st1)).1.
    rewrite on_arcade_capture_tally.
    destruct (accepted_label classifier st1); cbn [bump fst tally]; [done | lia].
Qed.

(** C10. In every state that the program reaches the score is the number
    of labels in the collection. Each event leaves both as they are or
    adds one label that was not in the collection and 1 to the score;
    entering Arcade mode first resets them to 0 and to the empty set. *)
Theorem score_is_collection_size
    (first_read : option frame) (t0 : Z) (d0 : datetime)
    (evs : list event) (st : State) :
  run classifier put_text evs (boot first_read t0 d0) = Some st →
  arcade_score (app st) = Z.of_nat (size (arcade_birds (app st))) ∧
  (∀ e st1 st2,
     step classifier put_text e st1 = Some st2 →
     let before :=
       match e with PressArcadeMode _ => (0, ∅) | _ => tally st1 end in
     tally st2 = before ∨
     ∃ l, (l ∉ before.2) ∧ tally st2 = (before.1 + 1, {[l]} ∪ before.2)).
Proof.
  intros Hrun. split.
  - by apply (run_card evs (boot first_read t0 d0) st).
  - intros e st1 st2 Hstep. cbv zeta.
    destruct (step_bump e st1 st2 Hstep) as [o ->]. apply bump_cases.
Qed.

(** *** The countdown *)

Lemma clock_camera_cycle r w : clock (camera_cycle r w) = clock w.
Proof. by destruct r. Qed.

Lemma clock_capture mode w : clock (capture_and_identify classifier mode w).2 = clock w.
Proof.
  destruct (global_frame w) as [g|] eqn:Hg.
  - by rewrite (capture_and_identify_some classifier mode w g Hg).
  - unfold capture_and_identify. by rewrite Hg.
Qed.

(** While a result is displayed in Arcade mode, nothing that can happen,
    short of the resume callback and of leaving the session, touches the
    countdown; time only moves forward. *)
Lemma step_keeps_countdown e st st' :
  shown (app st) = Arcade →
  arcade_running (app st) = true →
  freeze_arcade (app st) = true →
  keeps_display st e = true →
  step classifier put_text e st = Some st' →
  countdown st' = countdown st ∧ clock (world st) ≤ clock (world st').
Proof.
  intros Hs Hr Hf Hk. destruct e; cbn [step]; try done.
  - case_bool_decide; [| done]. intros [= <-]. split; [done |]. simpl. lia.
  - intros [= <-]. split; [done |]. cbn [world with_world]. by rewrite clock_camera_cycle.
  - rewrite Hs. by rewrite bool_decide_false.
  - rewrite Hs. by rewrite bool_decide_false.
  - rewrite Hs. by rewrite bool_decide_false.
  - rewrite Hs. by rewrite bool_decide_false.
  - rewrite Hs. rewrite bool_decide_true by done. intros [= <-].
    unfold on_arcade_capture. by rewrite Hr, Hf.
  - cbn [keeps_display] in Hk.
    destruct (timers (app st) !! i) as [[due cb]|]; [| done].
    case_bool_decide; [| done]. intros [= <-].
    destruct cb; try done; cbn [run_callback].
    + unfold update_explore_frame. cbn [app with_app shown set_timers]. rewrite Hs.
      by rewrite bool_decide_true.
    + unfold poll_button_explore. cbn [app with_app shown set_timers]. rewrite Hs.
      by rewrite bool_decide_true.
    + unfold poll_button_arcade.
      cbn [app with_app shown set_timers arcade_running freeze_arcade].
      rewrite Hs, Hr, Hf. rewrite bool_decide_false by (intros H'; by apply H').
      by rewrite andb_false_r.
    + unfold update_arcade_frame.
      cbn [app with_app shown set_timers arcade_running freeze_arcade].
      rewrite Hs, Hr, Hf. by rewrite bool_decide_false by (intros H'; by apply H').
Qed.

Lemma run_keeps_countdown evs st st' :
  shown (app st) = Arcade →
  arcade_running (app st) = true →
  freeze_arcade (app st) = true →
  run_while classifier put_text keeps_display evs st = Some st' →
  countdown st' = countdown st ∧ clock (world st) ≤ clock (world st').
Proof.
  revert st. induction evs as [|e evs IH]; intros st Hs Hr Hf; cbn [run_while].
  - intros [= <-]. split; [done | lia].
  - destruct (keeps_display st e) eqn:Hk; [| done].
    destruct (step classifier put_text e st) as [st1|] eqn:Hstep; [| done].
    cbn. intros Hrun.
    destruct (step_keeps_countdown e st st1 Hs Hr Hf Hk Hstep) as [Hc Hle].
    assert (countdown st1 = countdown st) as Hc' by done.
    unfold countdown in Hc. injection Hc as Hs1 Hr1 Hf1 _ _ _ _.
    destruct (IH st1) as [Hc2 Hle2]; [congruence.. | done |].
    split; [congruence | lia].
Qed.

Lemma on_arcade_capture_countdown (st : State) (g : ref) :
  arcade_running (app st) = true →
  freeze_arcade (app st) = false →
  global_frame (world st) = Some g →
  let st1 := on_arcade_capture classifier put_text st in
  shown (app st1) = shown (app st) ∧
  arcade_running (app st1) = true ∧
  freeze_arcade (app st1) = true ∧
  arcade_start_time (app st1) = arcade_start_time (app st) ∧
  pause_start_time (app st1) = Some (clock (world st)) ∧
  arcade_total (app st1) = arcade_total (app st) ∧
  clock (world st1) = clock (world st).
Proof.
  intros Hr Hf Hg. cbv zeta. rewrite (on_arcade_capture_accepted st g Hr Hf Hg).
  cbv zeta. cbn [app world with_app with_world after].
  split; [| split; [| split; [| split; [| split; [| split]]]]];
    try (match goal with
         | |- context [if ?b then set_arcade_score _ _ else _] => by destruct b
         end).
  destruct (overlay_world (next_ref (world st))
      (if bool_decide ((resolve_prediction (classifier (deref (world st) g))).1 ≠ "Unknown")
          && ge50 (resolve_prediction (classifier (deref (world st) g))).2
       then Identified (resolve_prediction (classifier (deref (world st) g))).1
              (resolve_prediction (classifier (deref (world st) g))).2
       else NoBird)
      (capture_and_identify classifier "arcade" (world st)).2) as (_ & _ & _ & _ & -> & _).
  apply clock_capture.
Qed.

(** C5. An Arcade capture records the time at which the pause begins. When
    the resume callback runs, after a display of any length [D] during
    which anything but the resume and the ways out may have happened, the
    start time of the session is moved forward by exactly [D], the time
    now minus the time recorded; so a tick of the countdown that runs
    [ε] later computes the time that remained when the capture began, less
    [ε] only, and this is what it displays. *)
Theorem pause_compensation (st st2 : State) (g : ref) (start : Z) (evs : list event) :
  shown (app st) = Arcade →
  arcade_running (app st) = true →
  freeze_arcade (app st) = false →
  global_frame (world st) = Some g →
  arcade_start_time (app st) = Some start →
  run_while classifier put_text keeps_display evs
    (on_arcade_capture classifier put_text st) = Some st2 →
  let R := remaining_at (clock (world st)) start (arcade_total (app st)) in
  let D := clock (world st2) - clock (world st) in
  pause_start_time (app st2) = Some (clock (world st)) ∧
  0 ≤ D ∧
  ∃ st3,
    resume_arcade_update st2 = Some st3 ∧
    arcade_start_time (app st3) = Some (start + D) ∧
    freeze_arcade (app st3) = false ∧
    ∀ ε now, 0 ≤ ε →
      let st4 := with_world (elapse ε now (world st3)) st3 in
      remaining_at (clock (world st4)) (start + D) (arcade_total (app st4)) = R - ε ∧
      (0 < R - ε →
         ∃ st5, update_arcade_frame put_text st4 = Some st5 ∧
                arcade_info_label (app st5) =
                  Some ((R - ε) `quot` 1000000, arcade_score (app st4))).
Proof.
  intros Hs Hr Hf Hg Hst Hrun. cbv zeta.
  destruct (on_arcade_capture_countdown st g Hr Hf Hg) as (Hs1 & Hr1 & Hf1 & Hst1 & Hp1 & Ht1 & Hc1).
  rewrite Hs in Hs1. rewrite Hst in Hst1.
  destruct (run_keeps_countdown evs _ st2 Hs1 Hr1 Hf1 Hrun) as [Hc Hle].
  unfold countdown in Hc. injection Hc as Hs2 Hr2 Hf2 Hst2 Hp2 Ht2 _.
  rewrite Hs1 in Hs2. rewrite Hr1 in Hr2. rewrite Hst1 in Hst2. rewrite Hp1 in Hp2.
  rewrite Ht1 in Ht2. rewrite Hc1 in Hle.
  split; [done |]. split; [lia |].
  unfold resume_arcade_update. rewrite Hp2, Hst2. eexists. split; [reflexivity |].
  cbn [app with_app arcade_start_time freeze_arcade set_freeze_arcade set_arcade_start_time].
  split; [done |]. split; [done |].
  intros ε now Hε.
  cbn [app world with_app with_world elapse clock arcade_total
       set_freeze_arcade set_arcade_start_time].
  rewrite Ht2. split; [unfold remaining_at; lia |].
  intros Hpos. unfold update_arcade_frame.
  cbn [app world with_app with_world elapse clock arcade_total arcade_running shown
       freeze_arcade arcade_start_time set_freeze_arcade set_arcade_start_time].
  rewrite Hr2, Hs2, Ht2. rewrite bool_decide_false by (intros H'; by apply H').
  cbn [negb orb].
  replace (remaining_at (clock (world st2) + ε)
             (start + (clock (world st2) - clock (world st))) (arcade_total (app st)))
    with (remaining_at (clock (world st)) start (arcade_total (app st)) - ε)
    by (unfold remaining_at; lia).
  destruct (_ <=? 0) eqn:Hz; [lia |].
  eexists. split; [reflexivity |].
  by destruct (snapshot _) as [[fr|] w'].
Qed.

End Machine.

(** ** Callbacks that outlive their mode *)

Section Stale.

Context (classifier : frame → list prediction).
Context (put_text : display_text → frame → frame).

(** The two refresh callbacks look at the frame that is shown, and at the
    running flag, before they do anything. *)
Lemma refresh_checks_its_mode (st : State) :
  (shown (app st) ≠ Explore → update_explore_frame st = st) ∧
  (shown (app st) ≠ Arcade ∨ arcade_running (app st) = false →
     update_arcade_frame put_text st = Some st).
Proof.
  split.
  - intros Hs. unfold update_explore_frame. by rewrite bool_decide_true.
  - intros Hs. unfold update_arcade_frame. destruct Hs as [Hs | ->]; [| done].
    rewrite (bool_decide_true (_ ≠ _)) by done. by rewrite orb_true_r.
Qed.

(** The two resume callbacks do not: whatever is shown, and whether a
    session is running or not, they clear the freeze flag, and the Arcade
    one moves the start time. *)
Lemma resume_checks_nothing (st : State) (pause_start start : Z) :
  pause_start_time (app st) = Some pause_start →
  arcade_start_time (app st) = Some start →
  freeze_explore (app (resume_explore st)) = false ∧
  ∃ st', resume_arcade_update st = Some st' ∧
         freeze_arcade (app st') = false ∧
         arcade_start_time (app st') = Some (start + (clock (world st) - pause_start)).
Proof.
  intros Hp Hs. split; [done |]. unfold resume_arcade_update. rewrite Hp, Hs.
  by eexists.
Qed.

End Stale.

(** C9. The resume callback of a capture of the first session runs in the
    second one, which was started 1.5 seconds ago and is neither frozen nor
    over: it moves the start time of that session two seconds forward,
    beyond the present time. The callback that the first Back left pending
    then ends the second session after 1.7 seconds. *)
Theorem stale_resume_shifts_new_session :
  countdown in_second_session = (Arcade, true, false, Some 1490000, Some 990000, 60, 0) ∧
  clock (world in_second_session) = 2990000 ∧
  timers (app in_second_session) !! 0%nat = Some (2990000, ResumeArcadeUpdate) ∧
  countdown (demo_run [Fire 0 false] in_second_session) =
    (Arcade, true, false, Some 3490000, Some 990000, 60, 0) ∧
  countdown (demo_run [Fire 0 false; Elapse 200000 (at_second 10 440000); Fire 0 false]
               in_second_session) =
    (Menu, false, false, Some 3490000, Some 990000, 60, 0).
Proof. repeat split; vm_compute; reflexivity. Qed.

(** ** The theorems at work on the concrete runs *)

Lemma capture_decision_policy_witness :
  global_frame robin_world = Some 1%nat ∧
  (capture_and_identify demo_classifier "arcade" robin_world).1.1 = ("robin", PyFloat 75).
Proof.
  split; [reflexivity |].
  pose proof (capture_decision_policy demo_classifier "arcade" robin_world 1%nat eq_refl) as H.
  cbv zeta in H.
  change (demo_classifier (deref robin_world 1%nat))
    with [Prediction "robin" 0.75%float; Prediction "wren" 0.125%float] in H.
  destruct H as (Hconf & _ & _ & Hname).
  destruct (capture_and_identify demo_classifier "arcade" robin_world) as [[[name conf] fr] w].
  cbn [fst snd label score] in *. rewrite Hconf, Hname; [reflexivity | reflexivity |].
  intros Hci. apply (contains_lower_ci "looney" "robin" eq_refl) in Hci. discriminate Hci.
Defined.

Lemma capture_empty_buffer_witness :
  global_frame (world (demo_boot None)) = None ∧
  (capture_and_identify demo_classifier "explore" (world (demo_boot None))).1
    = ("Unknown", PyInt 0, None) ∧
  storage_log (capture_and_identify demo_classifier "explore" (world (demo_boot None))).2 = [].
Proof.
  split; [reflexivity |].
  destruct (capture_empty_buffer demo_classifier "explore" (world (demo_boot None)) eq_refl)
    as (Hres & _ & _ & Hlog & _).
  split; [exact Hres | exact Hlog].
Defined.

Lemma capture_is_stored_by_mode_witness :
  global_frame (world (demo_boot (Some owl_frame))) = Some 1%nat ∧
  files (world (on_explore_capture demo_classifier demo_put_text (demo_boot (Some owl_frame))))
    !! "captured_birds/snowy_owl_20240517_120007.jpg" = Some owl_frame.
Proof.
  split; [reflexivity |].
  destruct (capture_is_stored_by_mode demo_classifier demo_put_text
              (demo_boot (Some owl_frame)) 1%nat eq_refl) as (Hexplore & _ & _).
  destruct (Hexplore eq_refl) as (_ & Hfile & _). exact Hfile.
Defined.

Lemma arcade_score_counts_distinct_labels_witness :
  arcade_score (app arcade_started) = 0 ∧
  arcade_birds (app arcade_started) = ∅ ∧
  run_while demo_classifier demo_put_text same_session three_captures arcade_started
    = Some after_three_captures ∧
  arcade_score (app after_three_captures) = 2.
Proof.
  assert (run_while demo_classifier demo_put_text same_session three_captures arcade_started
          = Some after_three_captures) as Hrun by (vm_compute; reflexivity).
  split; [reflexivity |]. split; [reflexivity |]. split; [exact Hrun |].
  destruct (arcade_score_counts_distinct_labels demo_classifier demo_put_text
              three_captures arcade_started after_three_captures eq_refl eq_refl Hrun)
    as (_ & Hscore & _).
  rewrite Hscore. vm_compute. reflexivity.
Defined.

Lemma pause_compensation_witness :
  shown (app ten_seconds_in) = Arcade ∧
  arcade_running (app ten_seconds_in) = true ∧
  freeze_arcade (app ten_seconds_in) = false ∧
  global_frame (world ten_seconds_in) = Some 1%nat ∧
  arcade_start_time (app ten_seconds_in) = Some 0 ∧
  run_while demo_classifier demo_put_text keeps_display two_second_display
    (on_arcade_capture demo_classifier demo_put_text ten_seconds_in) = Some display_over ∧
  ∃ st3, resume_arcade_update display_over = Some st3 ∧
         arcade_start_time (app st3) = Some 2000000 ∧
         remaining_at (clock (world st3)) 2000000 (arcade_total (app st3)) = 50000000.
Proof.
  assert (run_while demo_classifier demo_put_text keeps_display two_second_display
            (on_arcade_capture demo_classifier demo_put_text ten_seconds_in)
          = Some display_over) as Hrun by (vm_compute; reflexivity).
  assert (shown (app ten_seconds_in) = Arcade) as Hs by (vm_compute; reflexivity).
  assert (arcade_running (app ten_seconds_in) = true) as Hr by (vm_compute; reflexivity).
  assert (freeze_arcade (app ten_seconds_in) = false) as Hf by (vm_compute; reflexivity).
  assert (global_frame (world ten_seconds_in) = Some 1%nat) as Hg by (vm_compute; reflexivity).
  assert (arcade_start_time (app ten_seconds_in) = Some 0) as Hst by (vm_compute; reflexivity).
  do 6 (split; [assumption |]).
  destruct (pause_compensation demo_classifier demo_put_text ten_seconds_in display_over
              1%nat 0 two_second_display Hs Hr Hf Hg Hst Hrun)
    as (_ & _ & st3 & Hres & Hstart & _ & Htick).
  exists st3. split; [exact Hres |]. split; [exact Hstart |].
  destruct (Htick 0 (wall (world st3)) ltac:(done)) as [Hrem _].
  cbn [app world with_world elapse clock] in Hrem. rewrite Z.add_0_r in Hrem.
  exact Hrem.
Defined.

Lemma frozen_capture_is_noop_witness :
  freeze_explore (app both_frozen) = true ∧
  freeze_arcade (app both_frozen) = true ∧
  on_explore_capture demo_classifier demo_put_text both_frozen = both_frozen ∧
  on_arcade_capture demo_classifier demo_put_text both_frozen = both_frozen.
Proof.
  split; [reflexivity |]. split; [reflexivity |].
  destruct (frozen_capture_is_noop demo_classifier demo_put_text both_frozen false)
    as [Hexplore Harcade].
  split.
  - exact (proj1 (Hexplore eq_refl)).
  - exact (proj1 (Harcade (or_introl eq_refl))).
Defined.

Lemma snapshot_returns_last_published_witness :
  (0 < next_ref robin_world)%nat ∧
  ∃ c, (snapshot (publish_all ([1%nat] ++ [0%nat]) robin_world)).1 = Some c ∧
       deref (snapshot (publish_all ([1%nat] ++ [0%nat]) robin_world)).2 c = robin_frame.
Proof.
  assert (0 < next_ref robin_world)%nat as Hlt by (vm_compute; lia).
  split; [exact Hlt |].
  destruct (snapshot_returns_last_published [1%nat] 0%nat robin_world
              (demo_put_text NoBird) Hlt) as (c & Hc & Hd & _).
  exists c. split; [exact Hc |]. etrans; [exact Hd | vm_compute; reflexivity].
Defined.

Lemma score_is_collection_size_witness :
  run demo_classifier demo_put_text (PressArcadeMode false :: three_captures)
    (demo_boot (Some robin_frame)) = Some after_three_captures ∧
  arcade_score (app after_three_captures)
    = Z.of_nat (size (arcade_birds (app after_three_captures))).
Proof.
  assert (run demo_classifier demo_put_text (PressArcadeMode false :: three_captures)
            (demo_boot (Some robin_frame)) = Some after_three_captures) as Hrun
    by (vm_compute; reflexivity).
  split; [exact Hrun |].
  exact (proj1 (score_is_collection_size demo_classifier demo_put_text
                  (Some robin_frame) 0 noon _ _ Hrun)).
Defined.

(** ** Further properties of the handlers *)

(** Case analysis on the code of the handlers. *)
Ltac open_handlers :=
  unfold step, run_callback, start_explore, start_arcade, end_arcade_early,
    poll_button_explore, poll_button_arcade, update_explore_frame, update_arcade_frame,
    show_arcade_final, on_explore_capture, on_arcade_capture, resume_explore,
    resume_arcade_update, back_to_menu, show_frame in *.

Ltac app_simpl :=
  cbn [app world with_app with_world after callbacks
       shown freeze_explore arcade_total arcade_running freeze_arcade arcade_start_time
       pause_start_time arcade_score arcade_birds explore_label arcade_label
       arcade_info_label timers
       set_shown set_freeze_explore set_arcade_running set_freeze_arcade
       set_arcade_start_time set_pause_start_time set_arcade_score
       set_arcade_birds set_explore_label set_arcade_label
       set_arcade_info_label set_timers fst snd negb orb andb
       mbind option_bind default] in *.

Ltac split_cases :=
  repeat first
    [ progress app_simpl
    | match goal with
      | |- context [if ?b then _ else _] => destruct b eqn:?
      | |- context [let '(_, _) := ?x in _] => destruct x eqn:?
      | |- context [match ?x with _ => _ end] => destruct x eqn:?
      end ].


Section Sound.

Context (classifier : frame → list prediction).
Context (put_text : display_text → frame → frame).

(** *** No callback raises *)

Lemma sound_timers_sub st q :
  session_sound st → q ⊆ (timers (app st)) →
  session_sound (with_app (set_timers q) st).
Proof.
  intros [H1 H2] Hq. split; [exact H1 |]. unfold callbacks. app_simpl.
  intros Hin. apply H2. unfold callbacks.
  apply list_elem_of_fmap in Hin as (t & -> & Ht). apply list_elem_of_fmap. exists t.
  split; [done |]. by apply Hq.
Qed.

Ltac break_state st :=
  destruct st as [?w [?sh ?fe ?tot ?rn ?fa ?start ?pause ?sc ?birds ?el ?al ?il ?tm]];
  unfold session_sound, callbacks in *; app_simpl.

Ltac sound_leaf H1 H2 :=
  split;
  [ first [ done | by intros _; split; [done | eexists] | by apply H1 ]
  | rewrite ?fmap_app, ?elem_of_app; cbn [fmap list_fmap snd];
    intros Hin;
    repeat match type of Hin with _ ∨ _ => destruct Hin as [Hin | Hin] end;
    first [ by apply list_elem_of_singleton in Hin
          | by (destruct (H2 Hin); split; [done | eexists])
          | by apply H2
          | by (split; [eexists | apply H1])
          | by (split; eexists) ] ].

Lemma on_explore_capture_sound st :
  session_sound st → session_sound (on_explore_capture classifier put_text st).
Proof.
  break_state st. intros [H1 H2]. open_handlers. split_cases; sound_leaf H1 H2.
Qed.

Lemma on_arcade_capture_sound st :
  session_sound st → session_sound (on_arcade_capture classifier put_text st).
Proof.
  break_state st. intros [H1 H2]. open_handlers. destruct rn, fa; split_cases; sound_leaf H1 H2.
Qed.

Lemma update_explore_frame_sound st :
  session_sound st → session_sound (update_explore_frame st).
Proof.
  break_state st. intros [H1 H2]. open_handlers. split_cases; sound_leaf H1 H2.
Qed.

Lemma show_arcade_final_sound st :
  session_sound st → arcade_running (app st) = false → session_sound (show_arcade_final put_text st).
Proof.
  break_state st. intros [H1 H2] ->. open_handlers. split_cases; sound_leaf H1 H2.
Qed.

Lemma update_arcade_frame_sound st :
  session_sound st →
  ∃ st', update_arcade_frame put_text st = Some st' ∧ session_sound st'.
Proof.
  break_state st. intros [H1 H2]. open_handlers.
  destruct rn; [destruct (H1 eq_refl) as [-> [s ->]] |]; split_cases;
    (eexists; split; [reflexivity |]); split_cases; sound_leaf H1 H2.
Qed.

Lemma poll_button_explore_sound low st :
  session_sound st → session_sound (poll_button_explore classifier put_text low st).
Proof.
  break_state st. intros [H1 H2]. open_handlers. destruct low, fe; split_cases; sound_leaf H1 H2.
Qed.

Lemma poll_button_arcade_sound low st :
  session_sound st → session_sound (poll_button_arcade classifier put_text low st).
Proof.
  break_state st. intros [H1 H2]. open_handlers. destruct low, rn, fa; split_cases; sound_leaf H1 H2.
Qed.

Lemma start_explore_sound low st :
  shown (app st) = Menu →
  session_sound st → session_sound (start_explore classifier put_text low st).
Proof.
  intros Hm H. unfold start_explore. cbv zeta.
  apply poll_button_explore_sound, update_explore_frame_sound.
  revert Hm H. break_state st. intros -> [H1 H2]. unfold show_frame. app_simpl.
  destruct rn; [by destruct (H1 eq_refl) | sound_leaf H1 H2].
Qed.

Lemma start_arcade_sound low st :
  session_sound st →
  ∃ st', start_arcade classifier put_text low st = Some st' ∧ session_sound st'.
Proof.
  intros H. unfold start_arcade. cbv zeta.
  set (st2 := show_frame Arcade _).
  assert (session_sound st2) as H2.
  { subst st2. revert H. break_state st. intros [H1 H2]. unfold show_frame. app_simpl.
    sound_leaf H1 H2. }
  clearbody st2.
  destruct (update_arcade_frame_sound st2 H2) as (st3 & -> & H3).
  eexists. split; [reflexivity |]. by apply poll_button_arcade_sound.
Qed.

Lemma end_arcade_early_sound st :
  session_sound st → session_sound (end_arcade_early put_text st).
Proof.
  break_state st. intros [H1 H2]. open_handlers. destruct rn; split_cases; sound_leaf H1 H2.
Qed.

Lemma back_to_menu_sound st :
  session_sound st → session_sound (back_to_menu st).
Proof.
  break_state st. intros [H1 H2]. open_handlers. split_cases; sound_leaf H1 H2.
Qed.

Lemma resume_explore_sound st :
  session_sound st → session_sound (resume_explore st).
Proof.
  break_state st. intros [H1 H2]. open_handlers. split_cases; sound_leaf H1 H2.
Qed.

Lemma step_sound e st st' :
  session_sound st → step classifier put_text e st = Some st' → session_sound st'.
Proof.
  intros H. destruct e; cbn [step].
  - case_bool_decide; [| done]. by intros [= <-].
  - by intros [= <-].
  - case_bool_decide; [| done]. intros [= <-]. by apply start_explore_sound.
  - case_bool_decide; [| done]. intros Hst.
    destruct (start_arcade_sound gpio_low st H) as (st2 & Hst2 & Hs). congruence.
  - case_bool_decide; [| done]. intros [= <-]. by apply on_explore_capture_sound.
  - case_bool_decide; [| done]. intros [= <-]. by apply back_to_menu_sound.
  - case_bool_decide; [| done]. intros [= <-]. by apply on_arcade_capture_sound.
  - case_bool_decide; [| done]. intros [= <-]. by apply end_arcade_early_sound.
  - destruct (timers (app st) !! i) as [[due cb]|] eqn:Ht; [| done].
    case_bool_decide; [| done]. intros [= <-].
    pose proof (sound_timers_sub st (delete i (timers (app st))) H
                  (sublist_subseteq _ _ (sublist_delete _ _))) as Hd.
    assert (cb = ResumeArcadeUpdate →
            ∃ st', resume_arcade_update
                     (with_app (set_timers (delete i (timers (app st)))) st) = Some st' ∧
                   session_sound st') as Hres.
    { intros ->. destruct H as [H1 H2].
      destruct H2 as [[p Hp] [s Hs]].
      { unfold callbacks. apply list_elem_of_fmap. exists (due, ResumeArcadeUpdate).
        split; [done |]. by apply list_elem_of_lookup_2 in Ht. }
      unfold resume_arcade_update. app_simpl. rewrite Hp, Hs. eexists. split; [reflexivity |].
      revert Hd Hp Hs. clear. break_state st. intros [H1 H2] -> ->.
      split; [| intros Hin; split; by eexists].
      intros Hr. destruct (H1 Hr) as [-> _]. split; [done | by eexists]. }
    destruct cb; cbn [run_callback].
    + by apply resume_explore_sound.
    + by apply update_explore_frame_sound.
    + by apply poll_button_explore_sound.
    + destruct (Hres eq_refl) as (st2 & -> & Hs2). done.
    + by apply poll_button_arcade_sound.
    + destruct (update_arcade_frame_sound _ Hd) as (st2 & -> & Hs2). done.
    + by apply back_to_menu_sound.
Qed.

Lemma run_sound evs st st' :
  session_sound st → run classifier put_text evs st = Some st' → session_sound st'.
Proof.
  revert st. induction evs as [|e evs IH]; intros st H; cbn [run].
  - by intros [= <-].
  - destruct (step classifier put_text e st) as [st1|] eqn:Hstep; [| done].
    cbn. apply IH. by apply (step_sound e st).
Qed.

Lemma boot_sound first t0 d0 : session_sound (boot first t0 d0).
Proof. split; [done |]. unfold callbacks. cbn. by intros ?%elem_of_nil. Qed.

(** In every state that the program reaches, a session that runs is the one
    on the screen and has a start time. *)
Theorem running_session_is_shown
    (first_read : option frame) (t0 : Z) (d0 : datetime) (evs : list event) (st : State) :
  run classifier put_text evs (boot first_read t0 d0) = Some st →
  arcade_running (app st) = true →
  shown (app st) = Arcade ∧ is_Some (arcade_start_time (app st)).
Proof.
  intros Hrun. exact (proj1 (run_sound evs _ st (boot_sound first_read t0 d0) Hrun)).
Qed.

(** In every state that the program reaches, entering Arcade mode and
    running a pending tick or resume callback of Arcade mode does not raise:
    the times they subtract are set. *)
Theorem callbacks_never_raise
    (first_read : option frame) (t0 : Z) (d0 : datetime) (evs : list event) (st : State) :
  run classifier put_text evs (boot first_read t0 d0) = Some st →
  (∀ gpio_low, is_Some (start_arcade classifier put_text gpio_low st)) ∧
  (∀ i due, timers (app st) !! i = Some (due, UpdateArcadeFrame) →
     is_Some (update_arcade_frame put_text
                (with_app (set_timers (delete i (timers (app st)))) st))) ∧
  (∀ i due, timers (app st) !! i = Some (due, ResumeArcadeUpdate) →
     is_Some (resume_arcade_update
                (with_app (set_timers (delete i (timers (app st)))) st))).
Proof.
  intros Hrun. pose proof (run_sound evs _ st (boot_sound first_read t0 d0) Hrun) as H.
  split; [| split].
  - intros low. destruct (start_arcade_sound low st H) as (st' & -> & _). by eexists.
  - intros i due Ht.
    pose proof (sound_timers_sub st (delete i (timers (app st))) H
                  (sublist_subseteq _ _ (sublist_delete _ _))) as Hd.
    destruct (update_arcade_frame_sound _ Hd) as (st' & -> & _). by eexists.
  - intros i due Ht. destruct H as [H1 H2].
    destruct H2 as [[p Hp] [s Hs]].
    { unfold callbacks. apply list_elem_of_fmap. exists (due, ResumeArcadeUpdate).
      split; [done |]. by apply list_elem_of_lookup_2 in Ht. }
    unfold resume_arcade_update. app_simpl. rewrite Hp, Hs. by eexists.
Qed.

End Sound.

(** ** Further properties of the world *)

Section Worlds.

Context (classifier : frame → list prediction).
Context (put_text : display_text → frame → frame).

(** *** Properties of the world that the handlers keep *)

Section Closed.

Context (P : World → Prop).
Context (P_capture : ∀ mode w,
           mode = "captured" ∨ mode = "arcade" →
           P w → P (capture_and_identify classifier mode w).2).
Context (P_overlay : ∀ r t w, P w → P (overlay_text_on_frame put_text r t w).2).
Context (P_snapshot : ∀ w, P w → P (snapshot w).2).

Ltac chase :=
  repeat match goal with
  | H : capture_and_identify classifier ?m ?w = (_, ?w'), Hw : P ?w |- _ =>
      assert (P w') by
        (replace w' with (capture_and_identify classifier m w).2 by (by rewrite H);
         apply P_capture; [by (left + right) | exact Hw]);
      clear H
  | H : overlay_text_on_frame put_text ?r ?t ?w = (_, ?w'), Hw : P ?w |- _ =>
      assert (P w') by
        (replace w' with (overlay_text_on_frame put_text r t w).2 by (by rewrite H);
         by apply P_overlay);
      clear H
  | H : snapshot ?w = (_, ?w'), Hw : P ?w |- _ =>
      assert (P w') by
        (replace w' with (snapshot w).2 by (by rewrite H); by apply P_snapshot);
      clear H
  end.

Ltac closed_tac st :=
  destruct st as [w0 a0]; app_simpl; intros Hw; open_handlers; split_cases;
  try (intros [= <-]); app_simpl; chase; try done.

Lemma on_explore_capture_closed st :
  P (world st) → P (world (on_explore_capture classifier put_text st)).
Proof. closed_tac st. Qed.

Lemma on_arcade_capture_closed st :
  P (world st) → P (world (on_arcade_capture classifier put_text st)).
Proof. closed_tac st. Qed.

Lemma update_explore_frame_closed st :
  P (world st) → P (world (update_explore_frame st)).
Proof. closed_tac st. Qed.

Lemma show_arcade_final_closed st :
  P (world st) → P (world (show_arcade_final put_text st)).
Proof. closed_tac st. Qed.

Lemma poll_button_explore_closed low st :
  P (world st) → P (world (poll_button_explore classifier put_text low st)).
Proof. closed_tac st. Qed.

Lemma poll_button_arcade_closed low st :
  P (world st) → P (world (poll_button_arcade classifier put_text low st)).
Proof. closed_tac st. Qed.

Lemma update_arcade_frame_closed st st' :
  P (world st) → update_arcade_frame put_text st = Some st' → P (world st').
Proof. closed_tac st. Qed.

Lemma start_explore_closed low st :
  P (world st) → P (world (start_explore classifier put_text low st)).
Proof.
  intros H. unfold start_explore. cbv zeta.
  by apply poll_button_explore_closed, update_explore_frame_closed.
Qed.

Lemma start_arcade_closed low st st' :
  P (world st) → start_arcade classifier put_text low st = Some st' → P (world st').
Proof.
  intros H. unfold start_arcade. cbv zeta.
  destruct (update_arcade_frame put_text _) as [st3|] eqn:E; [| done].
  intros [= <-]. apply poll_button_arcade_closed.
  refine (update_arcade_frame_closed _ _ _ E). exact H.
Qed.

Lemma end_arcade_early_closed st :
  P (world st) → P (world (end_arcade_early put_text st)).
Proof. closed_tac st. Qed.

Lemma run_callback_closed cb low st :
  P (world st) → P (world (run_callback classifier put_text cb low st)).
Proof.
  intros H. destruct cb; cbn [run_callback]; try done.
  - by apply update_explore_frame_closed.
  - by apply poll_button_explore_closed.
  - unfold resume_arcade_update.
    by destruct (pause_start_time (app st)), (arcade_start_time (app st)).
  - by apply poll_button_arcade_closed.
  - destruct (update_arcade_frame put_text st) eqn:E; [| done].
    by apply (update_arcade_frame_closed _ _ H E).
Qed.

(** An event of the user interface keeps [P]. *)
Lemma ui_step_closed e st st' :
  (∀ dt now, e ≠ Elapse dt now) → (∀ r, e ≠ CameraCycle r) →
  P (world st) → step classifier put_text e st = Some st' → P (world st').
Proof.
  intros He Hc H. destruct e; cbn [step].
  - by destruct (He dt now).
  - by destruct (Hc r).
  - case_bool_decide; [| done]. intros [= <-]. by apply start_explore_closed.
  - case_bool_decide; [| done]. by apply start_arcade_closed.
  - case_bool_decide; [| done]. intros [= <-]. by apply on_explore_capture_closed.
  - case_bool_decide; [| done]. by intros [= <-].
  - case_bool_decide; [| done]. intros [= <-]. by apply on_arcade_capture_closed.
  - case_bool_decide; [| done]. intros [= <-]. by apply end_arcade_early_closed.
  - destruct (timers (app st) !! i) as [[due cb]|]; [| done].
    case_bool_decide; [| done]. intros [= <-]. by apply run_callback_closed.
Qed.

Context (P_elapse : ∀ dt now w, P w → P (elapse dt now w)).
Context (P_camera : ∀ r w, P w → P (camera_cycle r w)).

Lemma step_closed e st st' :
  P (world st) → step classifier put_text e st = Some st' → P (world st').
Proof.
  intros H. destruct e; try (by apply ui_step_closed).
  - cbn [step]. case_bool_decide; [| done]. intros [= <-]. by apply P_elapse.
  - cbn [step]. intros [= <-]. by apply P_camera.
Qed.

Lemma run_closed evs st st' :
  P (world st) → run classifier put_text evs st = Some st' → P (world st').
Proof.
  revert st. induction evs as [|e evs IH]; intros st H; cbn [run].
  - by intros [= <-].
  - destruct (step classifier put_text e st) as [st1|] eqn:Hstep; [| done].
    cbn. apply IH. by apply (step_closed e st).
Qed.

End Closed.

(** *** The world operations, one by one *)

Lemma capture_world (mode : string) (w : World) :
  (capture_and_identify classifier mode w).2 = w ∨
  ∃ g raw final,
    global_frame w = Some g ∧
    (capture_and_identify classifier mode w).2 =
      os_rename raw final
        (log_classifier (deref w g) (cv2_imwrite raw (next_ref w) (np_copy g w).2)).
Proof.
  destruct (global_frame w) as [g|] eqn:Hg.
  - right. exists g. rewrite (capture_and_identify_some classifier mode w g Hg).
    by eexists _, _.
  - left. unfold capture_and_identify. by rewrite Hg.
Qed.

Lemma keeps_arrays_refl w : keeps_arrays w w.
Proof. by split. Qed.

Lemma keeps_arrays_alloc w0 v w :
  keeps_arrays w0 w → keeps_arrays w0 (np_alloc v w).2.
Proof.
  intros [Hn Hd]. split; [simpl; lia |]. intros r Hr.
  rewrite deref_alloc_old by lia. by apply Hd.
Qed.

Lemma keeps_arrays_capture w0 mode w :
  keeps_arrays w0 w → keeps_arrays w0 (capture_and_identify classifier mode w).2.
Proof.
  intros H. destruct (capture_world mode w) as [-> | (g & raw & final & _ & ->)]; [done |].
  apply (keeps_arrays_alloc w0 (deref w g) w) in H. destruct H as [Hn Hd].
  split; [exact Hn | exact Hd].
Qed.

Lemma keeps_arrays_overlay w0 r t w :
  keeps_arrays w0 w → keeps_arrays w0 (overlay_text_on_frame put_text r t w).2.
Proof.
  intros [Hn Hd]. split; [simpl; lia |]. intros r' Hr.
  unfold overlay_text_on_frame, np_copy. cbn [snd fst np_alloc].
  rewrite deref_mutate_other by lia.
  rewrite (deref_alloc_old (deref w r) w) by lia. by apply Hd.
Qed.

Lemma keeps_arrays_snapshot w0 w :
  keeps_arrays w0 w → keeps_arrays w0 (snapshot w).2.
Proof.
  intros H. unfold snapshot. destruct (global_frame w); [| done].
  by apply keeps_arrays_alloc.
Qed.

Lemma keeps_arrays_camera w0 r w :
  keeps_arrays w0 w → keeps_arrays w0 (camera_cycle r w).
Proof.
  intros H. destruct r as [v|]; [| done]. unfold camera_cycle, cap_read.
  change (np_alloc v w) with (next_ref w, (np_alloc v w).2). cbv beta iota.
  apply (keeps_arrays_alloc w0 v w) in H.
  apply (keeps_arrays_alloc w0 (deref (np_alloc v w).2 (next_ref w))) in H.
  destruct H as [Hn Hd]. split; [exact Hn | exact Hd].
Qed.

Lemma step_keeps_arrays (e : event) (st st' : State) :
  step classifier put_text e st = Some st' →
  (next_ref (world st) ≤ next_ref (world st'))%nat ∧
  (∀ r, (r < next_ref (world st))%nat → deref (world st') r = deref (world st) r) ∧
  ((∀ r, e ≠ CameraCycle r) →
     global_frame (world st') = global_frame (world st) ∧
     (live_buffer (world st) → buffered (world st') = buffered (world st))).
Proof.
  intros Hstep.
  assert (keeps_arrays (world st) (world st')) as [Hn Hd].
  { refine (step_closed (keeps_arrays (world st)) _ _ _ _ _ e st st' _ Hstep).
    - intros mode w _. apply keeps_arrays_capture.
    - apply keeps_arrays_overlay.
    - apply keeps_arrays_snapshot.
    - intros dt now w [Hn Hd]. by split.
    - intros r w. apply keeps_arrays_camera.
    - apply keeps_arrays_refl. }
  split; [done |]. split; [done |]. intros He.
  assert (global_frame (world st') = global_frame (world st)) as Hg.
  { assert ((∃ dt now, e = Elapse dt now) ∨ (∀ dt now, e ≠ Elapse dt now))
      as [(dt & now & ->) | Hne]
      by (destruct e; first [left; by eexists _, _ | right; by intros]).
    - cbn [step] in Hstep. case_bool_decide; [| done]. by injection Hstep as <-.
    - refine (ui_step_closed (λ w, global_frame w = global_frame (world st))
                _ _ _ e st st' _ He _ Hstep).
      + intros mode w _ <-.
        by destruct (capture_world mode w) as [-> | (g & raw & final & _ & ->)].
      + intros r t w <-. done.
      + intros w <-. unfold snapshot. destruct (global_frame w) eqn:E; simpl; by rewrite ?E.
      + done.
      + done. }
  split; [done |]. intros Hlive. unfold buffered. rewrite Hg.
  destruct (global_frame (world st)) as [g|] eqn:Hgs; [| done]. cbn. f_equal.
  apply Hd. by apply Hlive.
Qed.

(** *** File names *)

Lemma contains_space_cons (c : ascii) (s : string) :
  Str.contains " " (String c s) = bool_decide (" "%char = c) || Str.contains " " s.
Proof. cbn. by rewrite andb_true_r. Qed.

Lemma contains_space_app (a b : string) :
  Str.contains " " (a +:+ b) = Str.contains " " a || Str.contains " " b.
Proof.
  induction a as [|c a IH].
  - by destruct b.
  - change (String c a +:+ b) with (String c (a +:+ b)).
    by rewrite !contains_space_cons, IH, orb_assoc.
Qed.

Lemma replace_char_no_space (s : string) :
  Str.contains " " (Str.replace_char " " "_" s) = false.
Proof.
  induction s as [|c s IH]; [done |].
  cbn [Str.replace_char]. rewrite contains_space_cons, IH, orb_false_r.
  destruct (decide (c = " "%char)) as [-> | Hc].
  - reflexivity.
  - rewrite (bool_decide_false (c = " "%char)) by done. apply bool_decide_eq_false. congruence.
Qed.

Lemma digit_not_space (n : N) : bool_decide (" "%char = digit n) = false.
Proof.
  apply bool_decide_eq_false. unfold digit. intros H.
  apply (f_equal N_of_ascii) in H. rewrite N_ascii_embedding in H.
  - change (N_of_ascii " ") with 32%N in H. revert H. generalize (n `mod` 10)%N. lia.
  - pose proof (N.mod_upper_bound n 10). lia.
Qed.

Lemma strftime_no_space (d : datetime) : Str.contains " " (strftime d) = false.
Proof.
  unfold strftime. rewrite !contains_space_app. unfold zero_pad4, zero_pad2.
  rewrite !contains_space_cons, !digit_not_space. done.
Qed.

Lemma final_path_no_space (mode name : string) (d : datetime) :
  mode = "captured" ∨ mode = "arcade" →
  Str.contains " " (mode +:+ "_birds/" +:+ Str.replace_char " " "_" name +:+ "_"
                      +:+ strftime d +:+ ".jpg") = false.
Proof.
  intros Hm. rewrite !contains_space_app, replace_char_no_space, strftime_no_space.
  by destruct Hm as [-> | ->].
Qed.

(** *** The storage and the logs *)

Lemma final_path_folder (mode rest : string) :
  mode = "captured" ∨ mode = "arcade" →
  Str.starts_with "captured_birds/" (mode +:+ "_birds/" +:+ rest)
  || Str.starts_with "arcade_birds/" (mode +:+ "_birds/" +:+ rest) = true.
Proof.
  intros [-> | ->]; cbn; rewrite ?bool_decide_true by done; cbn; by rewrite ?orb_true_r.
Qed.

Lemma store_ok_capture (mode : string) (w : World) :
  mode = "captured" ∨ mode = "arcade" →
  store_ok w → store_ok (capture_and_identify classifier mode w).2.
Proof.
  intros Hm [Hlen Hfiles].
  destruct (global_frame w) as [g|] eqn:Hg; cycle 1.
  { unfold capture_and_identify. by rewrite Hg. }
  destruct (capture_storage classifier mode w g Hg) as (Hlog & Hf & Hc).
  split.
  - rewrite Hlog, Hc, !length_app. cbn. lia.
  - intros p img. rewrite Hf, Hc. intros Hp.
    apply lookup_insert_Some in Hp as [[<- <-] | [Hne Hp]].
    + split; [apply elem_of_app; right; by apply list_elem_of_singleton |].
      split; [by apply final_path_no_space | by apply final_path_folder].
    + apply lookup_delete_Some in Hp as [Hne2 Hp].
      rewrite lookup_insert_ne in Hp by done.
      destruct (Hfiles p img Hp) as (Hin & Hsp & Hpre). split; [| done].
      apply elem_of_app. by left.
Qed.

Lemma live_buffer_capture (mode : string) (w : World) :
  live_buffer w → live_buffer (capture_and_identify classifier mode w).2.
Proof.
  intros H. destruct (capture_world mode w) as [-> | (g & raw & final & _ & ->)]; [done |].
  intros g' Hg'. cbn in *. apply H in Hg'. lia.
Qed.

Lemma live_buffer_camera (r : option frame) (w : World) :
  live_buffer w → live_buffer (camera_cycle r w).
Proof.
  intros H. destruct r as [v|]; [| done]. intros g. cbn. intros [= <-]. lia.
Qed.

(** The world of a reachable state. *)
Lemma reachable_world (first_read : option frame) (t0 : Z) (d0 : datetime)
    (evs : list event) (st : State) :
  run classifier put_text evs (boot first_read t0 d0) = Some st →
  store_ok (world st) ∧ live_buffer (world st).
Proof.
  intros Hrun. split.
  - refine (run_closed store_ok _ _ _ _ _ evs _ st _ Hrun).
    + apply store_ok_capture.
    + by intros r t w.
    + intros w H. unfold snapshot. by destruct (global_frame w).
    + by intros dt now w.
    + intros r w H. by destruct r.
    + split; [by destruct first_read |]. intros p img. by destruct first_read.
  - refine (run_closed live_buffer _ _ _ _ _ evs _ st _ Hrun).
    + intros mode w _. apply live_buffer_capture.
    + intros r t w H g Hg. apply H in Hg. cbn. lia.
    + intros w H. unfold snapshot. destruct (global_frame w) eqn:E; [| done].
      intros g' Hg'. cbn in *. apply H in Hg'. lia.
    + by intros dt now w.
    + apply live_buffer_camera.
    + destruct first_read as [v|]; [| done]. intros g. cbn. intros [= <-]. lia.
Qed.

(** In every state that the program reaches there are two storage calls for
    each call of the classifier, and every file holds an image that the
    classifier was given. *)
Theorem stored_images_were_classified
    (first_read : option frame) (t0 : Z) (d0 : datetime) (evs : list event) (st : State) :
  run classifier put_text evs (boot first_read t0 d0) = Some st →
  length (storage_log (world st)) = (2 * length (classifier_log (world st)))%nat ∧
  ∀ p img, files (world st) !! p = Some img → img ∈ classifier_log (world st).
Proof.
  intros Hrun. destruct (reachable_world first_read t0 d0 evs st Hrun) as [[Hlen Hf] _].
  split; [done |]. intros p img Hp. by destruct (Hf p img Hp).
Qed.

(** In every state that the program reaches, every file is under one of the
    two output folders and has no space in its name. *)
Theorem stored_names_are_plain
    (first_read : option frame) (t0 : Z) (d0 : datetime) (evs : list event) (st : State) :
  run classifier put_text evs (boot first_read t0 d0) = Some st →
  ∀ p, is_Some (files (world st) !! p) →
    Str.contains " " p = false ∧
    Str.starts_with "captured_birds/" p || Str.starts_with "arcade_birds/" p = true.
Proof.
  intros Hrun p [img Hp].
  destruct (reachable_world first_read t0 d0 evs st Hrun) as [[_ Hf] _].
  by destruct (Hf p img Hp) as (_ & ? & ?).
Qed.

(** What an event does to the arrays: in every state that the program
    reaches, an event writes to no array that exists and reuses no
    reference; and only a cycle of the camera thread rebinds the buffer, so
    that after any other event the buffer holds the frame it held. *)
Theorem arrays_are_never_overwritten
    (first_read : option frame) (t0 : Z) (d0 : datetime) (evs : list event)
    (e : event) (st st' : State) :
  run classifier put_text evs (boot first_read t0 d0) = Some st →
  step classifier put_text e st = Some st' →
  (next_ref (world st) ≤ next_ref (world st'))%nat ∧
  (∀ r, (r < next_ref (world st))%nat → deref (world st') r = deref (world st) r) ∧
  ((∀ r, e ≠ CameraCycle r) →
     global_frame (world st') = global_frame (world st) ∧
     buffered (world st') = buffered (world st)).
Proof.
  intros Hrun Hstep.
  destruct (reachable_world first_read t0 d0 evs st Hrun) as [_ Hlive].
  destruct (step_keeps_arrays e st st' Hstep) as (Hn & Hd & Hg).
  split; [done |]. split; [done |]. intros He. destruct (Hg He) as [Hg1 Hg2].
  split; [done | by apply Hg2].
Qed.

(** *** What is displayed *)

Lemma deref_mutate_alloc (f : frame → frame) (v : frame) (w : World) :
  deref (np_mutate (next_ref w) f (np_alloc v w).2) (next_ref w) = f v.
Proof. unfold deref. cbn. by rewrite lookup_total_alter_eq, lookup_insert_eq. Qed.

Lemma overlay_image (r : ref) (t : display_text) (w : World) :
  (overlay_text_on_frame put_text r t w).1 = put_text t (deref w r).
Proof.
  unfold overlay_text_on_frame, np_copy.
  change (np_alloc (deref w r) w) with (next_ref w, (np_alloc (deref w r) w).2).
  cbv beta iota zeta. cbn [fst]. apply deref_mutate_alloc.
Qed.

(** [overlay_text_on_frame] returns the pixels of its argument with the text
    drawn on them; the text is drawn on a new array, and the array given is
    left as it was. *)
Theorem overlay_draws_on_a_copy (r : ref) (t : display_text) (w : World) :
  (r < next_ref w)%nat →
  (overlay_text_on_frame put_text r t w).1 = put_text t (deref w r) ∧
  deref (overlay_text_on_frame put_text r t w).2 r = deref w r ∧
  deref (overlay_text_on_frame put_text r t w).2 (next_ref w) = put_text t (deref w r) ∧
  next_ref (overlay_text_on_frame put_text r t w).2 = S (next_ref w).
Proof.
  intros Hr. split; [apply overlay_image |]. split; [| split; [| done]].
  - unfold overlay_text_on_frame, np_copy. cbn [fst snd np_alloc].
    rewrite deref_mutate_other by lia. apply deref_alloc_old. lia.
  - rewrite <- (overlay_image r t w). done.
Qed.

Lemma deref_capture_frame (mode : string) (w : World) (g : ref) :
  global_frame w = Some g →
  deref (capture_and_identify classifier mode w).2 (next_ref w) = deref w g.
Proof.
  intros Hg. rewrite (capture_and_identify_some classifier mode w g Hg). cbv zeta.
  cbn [snd]. apply (deref_alloc (deref w g) w).
Qed.

(** A capture shows the same image in both modes: the frame that was
    buffered with [Identified <label> <confidence>] drawn on it when the
    label is resolved, and with [NoBird] when it is ["Unknown"]. The test
    [conf >= 50] of [on_arcade_capture] never changes the text. *)
Theorem same_result_in_both_modes (st : State) (g : ref) :
  global_frame (world st) = Some g →
  let res := resolve_prediction (classifier (deref (world st) g)) in
  let shown_img := put_text (result_text res) (deref (world st) g) in
  (freeze_explore (app st) = false →
     explore_label (app (on_explore_capture classifier put_text st)) = Some shown_img) ∧
  (arcade_running (app st) = true → freeze_arcade (app st) = false →
     arcade_label (app (on_arcade_capture classifier put_text st)) = Some shown_img).
Proof.
  intros Hg. cbv zeta. split.
  - intros Hf. rewrite (on_explore_capture_accepted classifier put_text st g Hf Hg).
    cbv zeta. cbn [app with_app after explore_label set_explore_label set_timers].
    by rewrite overlay_image, (deref_capture_frame "captured" (world st) g Hg).
  - intros Hr Hf. rewrite (on_arcade_capture_accepted classifier put_text st g Hr Hf Hg).
    cbv zeta. cbn [app with_app after arcade_label set_arcade_label set_timers].
    rewrite overlay_image, (deref_capture_frame "arcade" (world st) g Hg). do 2 f_equal.
    unfold result_text.
    destruct (decide ((resolve_prediction (classifier (deref (world st) g))).1 = "Unknown"))
      as [E | E].
    + by rewrite bool_decide_false by (intros H; by apply H).
    + rewrite bool_decide_true by done.
      by rewrite (resolve_prediction_known _ E).
Qed.

(** After a cycle of the camera thread that reads a frame, the next refresh
    of the mode that is shown, when it is not frozen and (in Arcade mode)
    time remains, displays that frame. *)
Theorem preview_shows_latest_frame (v : frame) (st : State) :
  let st1 := with_world (camera_cycle (Some v) (world st)) st in
  (shown (app st) = Explore → freeze_explore (app st) = false →
     explore_label (app (update_explore_frame st1)) = Some v) ∧
  (∀ start, shown (app st) = Arcade → arcade_running (app st) = true →
     freeze_arcade (app st) = false → arcade_start_time (app st) = Some start →
     0 < remaining_at (clock (world st)) start (arcade_total (app st)) →
     ∃ st2, update_arcade_frame put_text st1 = Some st2 ∧
            arcade_label (app st2) = Some v ∧
            arcade_running (app st2) = true).
Proof.
  cbv zeta.
  assert (∃ c w', snapshot (camera_cycle (Some v) (world st)) = (Some c, w') ∧
                  deref w' c = v ∧ clock (camera_cycle (Some v) (world st)) = clock (world st))
    as (c & w' & Hsnap & Hd & Hc).
  { pose proof (buffered_camera_cycle (Some v) (world st)) as Hb.
    assert (global_frame (camera_cycle (Some v) (world st)) = Some (S (next_ref (world st))))
      as Hg by done.
    assert (clock (camera_cycle (Some v) (world st)) = clock (world st)) as Hc by done.
    remember (camera_cycle (Some v) (world st)) as W eqn:EW. clear EW.
    unfold buffered in Hb. rewrite Hg in Hb. cbn in Hb. injection Hb as Hb.
    exists (next_ref W), (np_alloc v W).2.
    split; [| split; [apply deref_alloc | exact Hc]].
    unfold snapshot, np_copy. rewrite Hg, Hb. done. }
  split.
  - intros Hs Hf. unfold update_explore_frame. cbn [app world with_world].
    rewrite Hs, Hf, Hsnap. rewrite bool_decide_false by (intros H; by apply H).
    cbn. by rewrite Hd.
  - intros start Hs Hr Hf Hst Hrem. unfold update_arcade_frame. cbn [app world with_world].
    rewrite Hs, Hr, Hf, Hst, Hc, Hsnap. rewrite bool_decide_false by (intros H; by apply H).
    cbn [negb orb]. destruct (_ <=? 0) eqn:E; [lia |].
    eexists. split; [reflexivity |]. cbn. by rewrite Hd.
Qed.

(** *** The collection and the end of a session *)

Lemma resolve_prediction_collectable (ps : list prediction) :
  (resolve_prediction ps).1 ≠ "Unknown" → collectable (resolve_prediction ps).1.
Proof.
  intros Hne. split; [done |]. destruct ps as [|top rest]; [done |].
  pose proof (contains_lower_ci "looney" (label top) eq_refl) as Hci.
  unfold resolve_prediction in *.
  destruct (PrimFloat.leb _ _); cbn [andb negb fst] in *; [| done].
  destruct (Str.contains "looney" (Str.lower (label top))); cbn [andb negb fst] in *; [done |].
  intros H. apply Hci in H. done.
Qed.

Lemma accepted_label_collectable (st : State) (l : string) :
  accepted_label classifier st = Some l → collectable l.
Proof.
  unfold accepted_label. destruct (_ || _); [done |].
  destruct (global_frame (world st)) as [g|]; [| done].
  pose proof (resolve_prediction_collectable (classifier (deref (world st) g))) as H.
  destruct (resolve_prediction _) as [name conf]. cbn in H.
  case_bool_decide; [| done]. destruct (ge50 conf); [| done]. intros [= <-]. by apply H.
Qed.

Lemma bump_collectable (o : option string) (t : Z * gset string) :
  (∀ l, o = Some l → collectable l) →
  (∀ l, l ∈ t.2 → collectable l) →
  ∀ l, l ∈ (bump o t).2 → collectable l.
Proof.
  intros Ho Ht l. destruct o as [l'|]; cbn [bump snd]; [| by apply Ht].
  intros [->%elem_of_singleton | Hin]%elem_of_union; [by apply Ho | by apply Ht].
Qed.

Lemma birds_of_tally (st : State) : arcade_birds (app st) = (tally st).2.
Proof. reflexivity. Qed.

Lemma identified_by_collectable (e : event) (st : State) (l : string) :
  identified_by classifier e st = Some l → collectable l.
Proof.
  destruct e; cbn [identified_by]; try discriminate.
  - apply accepted_label_collectable.
  - destruct gpio_low; [| discriminate].
    destruct (timers (app st) !! i) as [[due cb]|]; [| discriminate].
    destruct cb; try discriminate.
    case_bool_decide; [| discriminate]. apply accepted_label_collectable.
Qed.

Lemma start_arcade_collectable (low : bool) (st st' : State) :
  start_arcade classifier put_text low st = Some st' →
  ∀ l, l ∈ arcade_birds (app st') → collectable l.
Proof.
  unfold start_arcade. cbv zeta.
  destruct (update_arcade_frame put_text _) as [st3|] eqn:E; [| discriminate].
  intros [= <-]. apply (update_arcade_frame_tally put_text) in E.
  intros l. rewrite birds_of_tally, poll_button_arcade_tally, E.
  apply bump_collectable.
  - intros l'. destruct (_ && _); [| discriminate]. apply accepted_label_collectable.
  - intros l' Hl. by apply elem_of_empty in Hl.
Qed.

Lemma step_collectable (e : event) (st st' : State) :
  step classifier put_text e st = Some st' →
  (∀ l, l ∈ arcade_birds (app st) → collectable l) →
  ∀ l, l ∈ arcade_birds (app st') → collectable l.
Proof.
  intros Hstep Hc. destruct (same_session st e) eqn:Hs.
  - intros l. rewrite birds_of_tally, (step_tally classifier put_text e st st' Hs Hstep).
    apply bump_collectable; [| exact Hc].
    intros l'. apply identified_by_collectable.
  - destruct e; try discriminate. cbn [step] in Hstep.
    case_bool_decide; [| discriminate]. by apply (start_arcade_collectable gpio_low st).
Qed.

(** In every state that the program reaches, the collection of a session
    holds neither ["Unknown"] nor a label that contains "looney" in any
    case. *)
Theorem collection_holds_accepted_labels_only
    (first_read : option frame) (t0 : Z) (d0 : datetime) (evs : list event) (st : State) :
  run classifier put_text evs (boot first_read t0 d0) = Some st →
  ∀ l, l ∈ arcade_birds (app st) → l ≠ "Unknown" ∧ ¬ Str.contains_ci "looney" l.
Proof.
  assert (∀ evs st0 st1, run classifier put_text evs st0 = Some st1 →
            (∀ l, l ∈ arcade_birds (app st0) → collectable l) →
            ∀ l, l ∈ arcade_birds (app st1) → collectable l) as Hgen.
  { clear. induction evs as [|e evs IH]; intros st0 st1; cbn [run].
    - by intros [= <-].
    - destruct (step classifier put_text e st0) as [st2|] eqn:Hstep; [| done].
      cbn. intros Hrun H0. apply (IH _ _ Hrun). by apply (step_collectable e st0). }
  intros Hrun. apply (Hgen _ _ _ Hrun). cbn. intros l Hl. by apply elem_of_empty in Hl.
Qed.

Lemma show_arcade_final_app (st : State) :
  arcade_running (app (show_arcade_final put_text st)) = arcade_running (app st) ∧
  shown (app (show_arcade_final put_text st)) = shown (app st) ∧
  timers (app (show_arcade_final put_text st)) =
    (timers (app st) ++ [(clock (world st) + 2000 * 1000, BackToMenu)])%list ∧
  (∀ g, global_frame (world st) = Some g →
     arcade_label (app (show_arcade_final put_text st)) =
       Some (put_text (TimesUp (arcade_score (app st))) (deref (world st) g))).
Proof.
  unfold show_arcade_final, snapshot.
  destruct (global_frame (world st)) as [g|] eqn:Hg; [| done].
  unfold np_copy.
  change (np_alloc (deref (world st) g) (world st))
    with (next_ref (world st), (np_alloc (deref (world st) g) (world st)).2).
  cbv beta iota zeta.
  pose proof (overlay_image (next_ref (world st)) (TimesUp (arcade_score (app st)))
                (np_alloc (deref (world st) g) (world st)).2) as Himg.
  destruct (overlay_world put_text (next_ref (world st)) (TimesUp (arcade_score (app st)))
              (np_alloc (deref (world st) g) (world st)).2) as (_ & _ & _ & _ & Hc & _).
  rewrite deref_alloc in Himg. change (clock (np_alloc (deref (world st) g) (world st)).2)
    with (clock (world st)) in Hc.
  destruct (overlay_text_on_frame _ _ _ _) as [img w']. cbn [fst snd] in Himg, Hc. subst img.
  cbn [app world with_app with_world after arcade_running shown timers arcade_label
       set_arcade_label set_timers].
  rewrite Hc. repeat split; try done. by intros g' [= <-].
Qed.

(** When the time is up, the tick of the countdown does what the Back button
    does to a running session: the session stops, the score and the
    collection stay, the final score is drawn on the buffered frame, and the
    return to the menu is due two seconds later. After that the tick and a
    capture request change nothing, and Back shows the menu. *)
Theorem countdown_expiry_ends_session (st : State) (start : Z) :
  shown (app st) = Arcade →
  arcade_running (app st) = true →
  freeze_arcade (app st) = false →
  arcade_start_time (app st) = Some start →
  remaining_at (clock (world st)) start (arcade_total (app st)) ≤ 0 →
  let st' := end_arcade_early put_text st in
  update_arcade_frame put_text st = Some st' ∧
  arcade_running (app st') = false ∧
  shown (app st') = Arcade ∧
  tally st' = tally st ∧
  timers (app st') = (timers (app st) ++ [(clock (world st) + 2000 * 1000, BackToMenu)])%list ∧
  (∀ g, global_frame (world st) = Some g →
     arcade_label (app st') =
       Some (put_text (TimesUp (arcade_score (app st))) (deref (world st) g))) ∧
  update_arcade_frame put_text st' = Some st' ∧
  on_arcade_capture classifier put_text st' = st' ∧
  shown (app (end_arcade_early put_text st')) = Menu.
Proof.
  intros Hs Hr Hf Hst Hrem. cbv zeta.
  assert (update_arcade_frame put_text st = Some (end_arcade_early put_text st)) as Hu.
  { unfold update_arcade_frame, end_arcade_early. rewrite Hs, Hr, Hf, Hst.
    rewrite bool_decide_false by (intros H; by apply H). cbn [negb orb].
    destruct (_ <=? 0) eqn:E; [done | lia]. }
  destruct (show_arcade_final_app (with_app (set_arcade_running false) st))
    as (Hr' & Hs' & Ht' & Hl').
  assert (end_arcade_early put_text st
          = show_arcade_final put_text (with_app (set_arcade_running false) st)) as Hend
    by (unfold end_arcade_early; by rewrite Hr).
  rewrite Hend in *. cbn [app world with_app arcade_running shown timers arcade_score
                          set_arcade_running] in Hr', Hs', Ht', Hl'.
  split; [done |]. split; [done |]. split; [by rewrite Hs' |].
  split; [by rewrite show_arcade_final_tally |]. split; [done |]. split; [done |].
  split; [unfold update_arcade_frame; by rewrite Hr' |].
  split; [unfold on_arcade_capture; by rewrite Hr' |].
  unfold end_arcade_early. by rewrite Hr'.
Qed.

(** *** The polls of the button *)

Ltac count_tac st :=
  destruct st as [w0 a0]; unfold pending; open_handlers; split_cases;
  try (intros [= <-]); app_simpl;
  rewrite ?filter_app, ?length_app, ?filter_cons, ?filter_nil; cbn [snd];
  repeat case_decide; try done; cbn [length]; try lia.

Lemma pending_update_explore (poll : callback) (st : State) :
  poll = PollButtonExplore ∨ poll = PollButtonArcade →
  pending poll (update_explore_frame st) = pending poll st.
Proof. intros [-> | ->]; count_tac st. Qed.

Lemma pending_on_explore_capture (poll : callback) (st : State) :
  poll = PollButtonExplore ∨ poll = PollButtonArcade →
  pending poll (on_explore_capture classifier put_text st) = pending poll st.
Proof. intros [-> | ->]; count_tac st. Qed.

Lemma pending_on_arcade_capture (poll : callback) (st : State) :
  poll = PollButtonExplore ∨ poll = PollButtonArcade →
  pending poll (on_arcade_capture classifier put_text st) = pending poll st.
Proof. intros [-> | ->]; count_tac st. Qed.

Lemma pending_show_arcade_final (poll : callback) (st : State) :
  poll = PollButtonExplore ∨ poll = PollButtonArcade →
  pending poll (show_arcade_final put_text st) = pending poll st.
Proof. intros [-> | ->]; count_tac st. Qed.

Lemma pending_update_arcade (poll : callback) (st st' : State) :
  poll = PollButtonExplore ∨ poll = PollButtonArcade →
  update_arcade_frame put_text st = Some st' →
  pending poll st' = pending poll st.
Proof. intros [-> | ->]; count_tac st. Qed.

Lemma pending_end_arcade_early (poll : callback) (st : State) :
  poll = PollButtonExplore ∨ poll = PollButtonArcade →
  pending poll (end_arcade_early put_text st) = pending poll st.
Proof. intros [-> | ->]; count_tac st. Qed.

Lemma pending_poll_explore (low : bool) (st : State) :
  pending PollButtonExplore (poll_button_explore classifier put_text low st)
    = S (pending PollButtonExplore st) ∧
  pending PollButtonArcade (poll_button_explore classifier put_text low st)
    = pending PollButtonArcade st.
Proof. split; count_tac st. Qed.

Lemma pending_poll_arcade (low : bool) (st : State) :
  pending PollButtonArcade (poll_button_arcade classifier put_text low st)
    = S (pending PollButtonArcade st) ∧
  pending PollButtonExplore (poll_button_arcade classifier put_text low st)
    = pending PollButtonExplore st.
Proof. split; count_tac st. Qed.

Lemma pending_delete (poll : callback) (st : State) (i : nat) (due : Z) (cb : callback) :
  timers (app st) !! i = Some (due, cb) →
  (pending poll (with_app (set_timers (delete i (timers (app st)))) st)
   + (if decide (cb = poll) then 1 else 0))%nat = pending poll st.
Proof.
  intros Ht. unfold pending. cbn [app with_app timers set_timers].
  rewrite <- (take_drop_middle _ _ _ Ht) at 2.
  rewrite delete_take_drop, !filter_app, filter_cons, !length_app. cbn [snd].
  destruct (decide (cb = poll)); cbn [length]; lia.
Qed.

Lemma pending_start_explore (low : bool) (st : State) :
  pending PollButtonExplore (start_explore classifier put_text low st)
    = S (pending PollButtonExplore st) ∧
  pending PollButtonArcade (start_explore classifier put_text low st)
    = pending PollButtonArcade st.
Proof.
  unfold start_explore. cbv zeta.
  destruct (pending_poll_explore low
              (update_explore_frame
                 (with_app (set_freeze_explore false) (show_frame Explore st)))) as [-> ->].
  rewrite !pending_update_explore by auto. done.
Qed.

Lemma pending_start_arcade (low : bool) (st st' : State) :
  start_arcade classifier put_text low st = Some st' →
  pending PollButtonArcade st' = S (pending PollButtonArcade st) ∧
  pending PollButtonExplore st' = pending PollButtonExplore st.
Proof.
  unfold start_arcade. cbv zeta.
  destruct (update_arcade_frame put_text _) as [st3|] eqn:E; [| done].
  intros [= <-]. destruct (pending_poll_arcade low st3) as [-> ->].
  rewrite (pending_update_arcade PollButtonArcade _ _ (or_intror eq_refl) E).
  rewrite (pending_update_arcade PollButtonExplore _ _ (or_introl eq_refl) E). done.
Qed.

Lemma entries_cons (m : Mode) (e : event) (evs : list event) :
  entries m (e :: evs) = (entries m [e] + entries m evs)%nat.
Proof.
  unfold entries. change (e :: evs) with ([e] ++ evs)%list.
  by rewrite filter_app, length_app.
Qed.

Ltac entries_tac :=
  unfold entries; rewrite ?filter_cons, ?filter_nil; cbn [enters];
  repeat case_decide; try done; cbn [length]; try lia.

Lemma pending_step (e : event) (st st' : State) :
  step classifier put_text e st = Some st' →
  pending PollButtonExplore st' =
    (pending PollButtonExplore st + entries Explore [e])%nat ∧
  pending PollButtonArcade st' =
    (pending PollButtonArcade st + entries Arcade [e])%nat.
Proof.
  destruct e; cbn [step].
  - case_bool_decide; [| done]. intros [= <-]. split; entries_tac.
  - intros [= <-]. split; entries_tac.
  - case_bool_decide; [| done]. intros [= <-].
    destruct (pending_start_explore gpio_low st) as [-> ->].
    split; entries_tac.
  - case_bool_decide; [| done]. intros Hst.
    destruct (pending_start_arcade gpio_low st st' Hst) as [-> ->].
    split; entries_tac.
  - case_bool_decide; [| done]. intros [= <-].
    rewrite !pending_on_explore_capture by auto. split; entries_tac.
  - case_bool_decide; [| done]. intros [= <-]. split; entries_tac.
  - case_bool_decide; [| done]. intros [= <-].
    rewrite !pending_on_arcade_capture by auto. split; entries_tac.
  - case_bool_decide; [| done]. intros [= <-].
    rewrite !pending_end_arcade_early by auto. split; entries_tac.
  - destruct (timers (app st) !! i) as [[due cb]|] eqn:Ht; [| done].
    case_bool_decide; [| done]. intros [= <-].
    pose proof (pending_delete PollButtonExplore st i due cb Ht) as He.
    pose proof (pending_delete PollButtonArcade st i due cb Ht) as Ha.
    set (st0 := with_app _ st) in *. clearbody st0.
    assert (entries Explore [Fire i gpio_low] = 0%nat ∧ entries Arcade [Fire i gpio_low] = 0%nat)
      as [-> ->] by (split; entries_tac).
    rewrite !Nat.add_0_r.
    assert (∀ poll, pending poll (resume_explore st0) = pending poll st0) as Hre by done.
    assert (∀ poll, pending poll (back_to_menu st0) = pending poll st0) as Hbm by done.
    assert (∀ poll, pending poll (default st0 (resume_arcade_update st0)) = pending poll st0)
      as Hra.
    { intros poll. unfold resume_arcade_update.
      by destruct (pause_start_time (app st0)), (arcade_start_time (app st0)). }
    assert (∀ poll, poll = PollButtonExplore ∨ poll = PollButtonArcade →
              pending poll (default st0 (update_arcade_frame put_text st0)) = pending poll st0)
      as Hua.
    { intros poll Hp. destruct (update_arcade_frame put_text st0) as [st1|] eqn:E; [| done].
      apply (pending_update_arcade poll _ _ Hp E). }
    destruct (pending_poll_explore gpio_low st0) as [Hpe1 Hpe2].
    destruct (pending_poll_arcade gpio_low st0) as [Hpa1 Hpa2].
    destruct cb; cbn [run_callback];
      rewrite ?Hre, ?Hbm, ?Hra, ?Hua, ?pending_update_explore, ?Hpe1, ?Hpe2, ?Hpa1, ?Hpa2
        by auto;
      repeat match goal with
             | H : context [decide ?P] |- _ => destruct (decide P); try done
             end;
      split; lia.
Qed.

(** The polls of the button are never cancelled: in every state that the
    program reaches, the number of pending polls of a mode is the number of
    times the mode was entered. *)
Theorem polls_accumulate
    (first_read : option frame) (t0 : Z) (d0 : datetime) (evs : list event) (st : State) :
  run classifier put_text evs (boot first_read t0 d0) = Some st →
  pending PollButtonExplore st = entries Explore evs ∧
  pending PollButtonArcade st = entries Arcade evs.
Proof.
  assert (∀ evs st0 st1, run classifier put_text evs st0 = Some st1 →
            pending PollButtonExplore st1
              = (pending PollButtonExplore st0 + entries Explore evs)%nat ∧
            pending PollButtonArcade st1
              = (pending PollButtonArcade st0 + entries Arcade evs)%nat) as Hgen.
  { clear. induction evs as [|e evs IH]; intros st0 st1; cbn [run].
    - intros [= <-]. unfold entries. rewrite !filter_nil. cbn. lia.
    - destruct (step classifier put_text e st0) as [st2|] eqn:Hstep; [| done].
      cbn -[entries pending]. intros Hrun. destruct (IH _ _ Hrun) as [-> ->].
      destruct (pending_step e st0 st2 Hstep) as [-> ->].
      rewrite !(entries_cons _ e evs). lia. }
  intros Hrun. destruct (Hgen _ _ _ Hrun) as [-> ->]. unfold pending. cbn. done.
Qed.

End Worlds.

(** ** The timestamp *)

Lemma digit_inj (a b : N) : digit a = digit b → (a mod 10 = b mod 10)%N.
Proof.
  unfold digit. intros H. apply (f_equal N_of_ascii) in H.
  rewrite !N_ascii_embedding in H.
  - lia.
  - pose proof (N.mod_upper_bound b 10). lia.
  - pose proof (N.mod_upper_bound a 10). lia.
Qed.

Lemma zero_pad2_inj (a b : N) :
  (a < 100)%N → (b < 100)%N → zero_pad2 a = zero_pad2 b → a = b.
Proof.
  intros Ha Hb [= H1 H2]. apply digit_inj in H1, H2.
  rewrite (N.div_mod a 10), (N.div_mod b 10) by done.
  rewrite N.mod_small in H1 by (apply N.Div0.div_lt_upper_bound; lia).
  rewrite (N.mod_small (b / 10)) in H1 by (apply N.Div0.div_lt_upper_bound; lia).
  by rewrite H1, H2.
Qed.

Lemma zero_pad4_inj (a b : N) :
  (a < 10000)%N → (b < 10000)%N → zero_pad4 a = zero_pad4 b → a = b.
Proof.
  intros Ha Hb [= H1 H2 H3 H4]. apply digit_inj in H1, H2, H3, H4.
  assert (∀ n, (n < 10000)%N →
            n = (1000 * ((n / 1000) mod 10) + 100 * ((n / 100) mod 10)
                 + 10 * ((n / 10) mod 10) + n mod 10)%N) as E.
  { intros n Hn.
    pose proof (N.div_mod n 10 ltac:(done)).
    pose proof (N.div_mod (n / 10) 10 ltac:(done)).
    pose proof (N.div_mod (n / 10 / 10) 10 ltac:(done)).
    rewrite (N.Div0.div_div n 10 10) in *. 
    pose proof (N.Div0.div_div n 100 10) as E3. change (100 * 10)%N with 1000%N in E3.
    change (10 * 10)%N with 100%N in *. rewrite E3 in *.
    assert (n / 1000 < 10)%N by (apply N.Div0.div_lt_upper_bound; lia).
    rewrite (N.mod_small (n / 1000)) by done. lia. }
  rewrite (E a Ha), (E b Hb). by rewrite H1, H2, H3, H4.
Qed.

Lemma append_length (s t : string) :
  String.length (s +:+ t) = (String.length s + String.length t)%nat.
Proof. induction s as [|c s IH]; simpl; [done | by rewrite IH]. Qed.

Lemma append_inj_prefix (p a b : string) : p +:+ a = p +:+ b → a = b.
Proof. induction p as [|c p IH]; simpl; [done |]. intros [= H]. by apply IH. Qed.

(** Two strings that end with suffixes of the same length: the suffixes and
    what comes before them are the same. *)
Lemma append_inj_suffix (a b s t : string) :
  String.length s = String.length t → a +:+ s = b +:+ t → a = b ∧ s = t.
Proof.
  intros Hl. revert b. induction a as [|c a IH]; intros [|d b]; simpl; intros H.
  - done.
  - apply (f_equal String.length) in H. simpl in H. rewrite ?append_length in H. simpl in H. lia.
  - apply (f_equal String.length) in H. simpl in H. rewrite ?append_length in H. simpl in H. lia.
  - injection H as -> H. destruct (IH b H) as [-> ->]. done.
Qed.

Lemma strftime_length (d : datetime) : String.length (strftime d) = 15%nat.
Proof. by destruct d. Qed.

Lemma strftime_inj (d d' : datetime) :
  valid_datetime d → valid_datetime d' →
  strftime d = strftime d' → whole_second d = whole_second d'.
Proof.
  intros (Hy & Hm & Hd & Hh & Hmi & Hs & _) (Hy' & Hm' & Hd' & Hh' & Hmi' & Hs' & _).
  destruct d as [y m dd h mi s us], d' as [y' m' dd' h' mi' s' us']. cbn in *.
  unfold strftime, whole_second. cbn [year month day hour minute second].
  intros H.
  assert (zero_pad4 y = zero_pad4 y' ∧ zero_pad2 m = zero_pad2 m' ∧
          zero_pad2 dd = zero_pad2 dd' ∧ zero_pad2 h = zero_pad2 h' ∧
          zero_pad2 mi = zero_pad2 mi' ∧ zero_pad2 s = zero_pad2 s')
    as (E1 & E2 & E3 & E4 & E5 & E6).
  { unfold zero_pad4, zero_pad2 in *. cbn in H.
    injection H as H1 H2 H3 H4 H5 H6 H7 H8 H9 H10 H11 H12 H13 H14.
    repeat split; congruence. }
  apply zero_pad4_inj in E1; [| lia..].
  apply zero_pad2_inj in E2, E3, E4, E5, E6; [| lia..].
  by subst.
Qed.

(** The timestamp of a file name has 15 characters and second resolution,
    exactly: two readings of the clock give the same timestamp if and only
    if they differ in their microseconds at most. *)
Theorem strftime_second_resolution (d d' : datetime) :
  valid_datetime d → valid_datetime d' →
  String.length (strftime d) = 15%nat ∧
  (strftime d = strftime d' ↔ whole_second d = whole_second d').
Proof.
  intros Hd Hd'. split; [apply strftime_length |]. split.
  - by apply strftime_inj.
  - intros H. change (strftime (whole_second d) = strftime (whole_second d')). by rewrite H.
Qed.


Section Stamps.

Context (classifier : frame → list prediction).

Lemma stamped_path_inj (mode x y : string) (d d' : datetime) :
  mode +:+ "_birds/" +:+ x +:+ "_" +:+ strftime d +:+ ".jpg"
  = mode +:+ "_birds/" +:+ y +:+ "_" +:+ strftime d' +:+ ".jpg" →
  x = y ∧ strftime d = strftime d'.
Proof.
  intros H. apply append_inj_prefix, append_inj_prefix in H.
  apply append_inj_suffix in H as [-> H].
  - split; [done |]. apply (append_inj_prefix "_") in H.
    by apply append_inj_suffix in H as [H _].
  - cbn. by rewrite !append_length, !strftime_length.
Qed.

(** A capture leaves alone every file of its folder that is stamped with
    another second, whatever its label. *)
Theorem capture_keeps_other_seconds
    (mode x : string) (w : World) (g : ref) (d : datetime) :
  global_frame w = Some g →
  valid_datetime d → valid_datetime (wall w) →
  whole_second d ≠ whole_second (wall w) →
  let p := mode +:+ "_birds/" +:+ x +:+ "_" +:+ strftime d +:+ ".jpg" in
  files (capture_and_identify classifier mode w).2 !! p = files w !! p.
Proof.
  intros Hg Hd Hw Hne. cbv zeta.
  assert (strftime d ≠ strftime (wall w)) as Hts.
  { intros E. apply Hne. by apply strftime_inj. }
  destruct (capture_storage classifier mode w g Hg) as (_ & -> & _).
  rewrite lookup_insert_ne; cycle 1.
  { intros E. symmetry in E. apply stamped_path_inj in E as [_ E]. done. }
  rewrite lookup_delete_ne; cycle 1.
  { intros E. symmetry in E. apply (stamped_path_inj mode x "bird" d (wall w)) in E as [_ E].
    done. }
  rewrite lookup_insert_ne; [done |].
  intros E. symmetry in E. apply (stamped_path_inj mode x "bird" d (wall w)) in E as [_ E].
  done.
Qed.

End Stamps.

(** ** What stays while a result is displayed *)

Section Display.

Context (classifier : frame → list prediction).
Context (put_text : display_text → frame → frame).

Lemma step_keeps_explore_result e st st' :
  shown (app st) = Explore →
  freeze_explore (app st) = true →
  keeps_explore_display st e = true →
  step classifier put_text e st = Some st' →
  shown (app st') = Explore ∧ freeze_explore (app st') = true ∧
  explore_label (app st') = explore_label (app st) ∧
  files (world st') = files (world st) ∧
  classifier_log (world st') = classifier_log (world st).
Proof.
  intros Hs Hf Hk. destruct e; cbn [step keeps_explore_display] in *; try done.
  - case_bool_decide; [| done]. by intros [= <-].
  - intros [= <-]. by destruct r.
  - rewrite Hs. by rewrite bool_decide_false.
  - rewrite Hs. by rewrite bool_decide_false.
  - rewrite Hs. rewrite bool_decide_true by done. intros [= <-].
    unfold on_explore_capture. by rewrite Hf.
  - rewrite Hs. by rewrite bool_decide_false.
  - rewrite Hs. by rewrite bool_decide_false.
  - destruct (timers (app st) !! i) as [[due cb]|]; [| done].
    case_bool_decide; [| done]. intros [= <-].
    destruct cb; try done; cbn [run_callback].
    + unfold update_explore_frame. cbn [app with_app shown freeze_explore set_timers].
      rewrite Hs, Hf. by rewrite bool_decide_false by (intros H'; by apply H').
    + unfold poll_button_explore. cbn [app with_app shown freeze_explore set_timers].
      rewrite Hs, Hf. rewrite bool_decide_false by (intros H'; by apply H').
      by rewrite andb_false_r.
    + unfold resume_arcade_update.
      cbn [app with_app pause_start_time arcade_start_time set_timers].
      by destruct (pause_start_time (app st)), (arcade_start_time (app st)).
    + unfold poll_button_arcade. cbn [app with_app shown set_timers].
      rewrite Hs. rewrite bool_decide_true by done. by rewrite orb_true_r.
    + unfold update_arcade_frame. cbn [app with_app shown set_timers].
      rewrite Hs. rewrite bool_decide_true by done. by rewrite orb_true_r.
Qed.

Lemma step_keeps_arcade_result e st st' :
  shown (app st) = Arcade →
  arcade_running (app st) = true →
  freeze_arcade (app st) = true →
  keeps_display st e = true →
  step classifier put_text e st = Some st' →
  arcade_label (app st') = arcade_label (app st) ∧
  files (world st') = files (world st) ∧
  classifier_log (world st') = classifier_log (world st).
Proof.
  intros Hs Hr Hf Hk. destruct e; cbn [step keeps_display] in *; try done.
  - case_bool_decide; [| done]. by intros [= <-].
  - intros [= <-]. by destruct r.
  - rewrite Hs. by rewrite bool_decide_false.
  - rewrite Hs. by rewrite bool_decide_false.
  - rewrite Hs. by rewrite bool_decide_false.
  - rewrite Hs. by rewrite bool_decide_false.
  - rewrite Hs. rewrite bool_decide_true by done. intros [= <-].
    unfold on_arcade_capture. by rewrite Hr, Hf.
  - destruct (timers (app st) !! i) as [[due cb]|]; [| done].
    case_bool_decide; [| done]. intros [= <-].
    destruct cb; try done; cbn [run_callback].
    + unfold update_explore_frame. cbn [app with_app shown set_timers]. rewrite Hs.
      by rewrite bool_decide_true.
    + unfold poll_button_explore. cbn [app with_app shown set_timers]. rewrite Hs.
      by rewrite bool_decide_true.
    + unfold poll_button_arcade.
      cbn [app with_app shown set_timers arcade_running freeze_arcade].
      rewrite Hs, Hr, Hf. rewrite bool_decide_false by (intros H'; by apply H').
      by rewrite andb_false_r.
    + unfold update_arcade_frame.
      cbn [app with_app shown set_timers arcade_running freeze_arcade].
      rewrite Hs, Hr, Hf. by rewrite bool_decide_false by (intros H'; by apply H').
Qed.

(** In Explore mode the result of a capture stays on the screen until the
    resume callback runs or the user goes back: whatever else happens, clicks
    and presses of the button included, the image and the files stay and the
    classifier is not called. *)
Theorem explore_result_stays_until_resume (st st' : State) (evs : list event) :
  shown (app st) = Explore →
  freeze_explore (app st) = true →
  run_while classifier put_text keeps_explore_display evs st = Some st' →
  shown (app st') = Explore ∧ freeze_explore (app st') = true ∧
  explore_label (app st') = explore_label (app st) ∧
  files (world st') = files (world st) ∧
  classifier_log (world st') = classifier_log (world st).
Proof.
  revert st. induction evs as [|e evs IH]; intros st Hs Hf; cbn [run_while].
  - by intros [= <-].
  - destruct (keeps_explore_display st e) eqn:Hk; [| done].
    destruct (step classifier put_text e st) as [st1|] eqn:Hstep; [| done].
    cbn. intros Hrun.
    destruct (step_keeps_explore_result e st st1 Hs Hf Hk Hstep)
      as (Hs1 & Hf1 & Hl1 & Hfl1 & Hc1).
    destruct (IH st1 Hs1 Hf1 Hrun) as (? & ? & ? & ? & ?).
    repeat split; congruence.
Qed.

(** In Arcade mode the result of a capture stays on the screen until the
    resume callback runs or the user goes back, and the session cannot end
    in the meantime, however late the clock: the image, the running flag, the
    times, the score and the files stay, and the classifier is not called. *)
Theorem arcade_result_stays_until_resume (st st' : State) (evs : list event) :
  shown (app st) = Arcade →
  arcade_running (app st) = true →
  freeze_arcade (app st) = true →
  run_while classifier put_text keeps_display evs st = Some st' →
  countdown st' = countdown st ∧
  arcade_label (app st') = arcade_label (app st) ∧
  files (world st') = files (world st) ∧
  classifier_log (world st') = classifier_log (world st).
Proof.
  revert st. induction evs as [|e evs IH]; intros st Hs Hr Hf; cbn [run_while].
  - by intros [= <-].
  - destruct (keeps_display st e) eqn:Hk; [| done].
    destruct (step classifier put_text e st) as [st1|] eqn:Hstep; [| done].
    cbn. intros Hrun.
    destruct (step_keeps_arcade_result e st st1 Hs Hr Hf Hk Hstep) as (Hl1 & Hfl1 & Hc1).
    destruct (step_keeps_countdown classifier put_text e st st1 Hs Hr Hf Hk Hstep)
      as [Hcd _].
    assert (countdown st1 = countdown st) as Hcd' by done.
    unfold countdown in Hcd. injection Hcd as Hs1 Hr1 Hf1 _ _ _ _.
    destruct (IH st1) as (? & ? & ? & ?); [congruence.. | done |].
    repeat split; congruence.
Qed.

(** A capture request made while the buffer is empty displays nothing,
    stores nothing and schedules nothing: in Explore mode the state is what
    it was, in Arcade mode only the time of the pause is overwritten. *)
Theorem capture_request_with_empty_buffer (st : State) :
  global_frame (world st) = None →
  (freeze_explore (app st) = false →
     on_explore_capture classifier put_text st = st) ∧
  (arcade_running (app st) = true → freeze_arcade (app st) = false →
     on_arcade_capture classifier put_text st =
       with_app (set_pause_start_time (Some (clock (world st)))) st).
Proof.
  intros Hg. split.
  - intros Hf. by apply on_explore_capture_empty.
  - intros Hr Hf. by apply on_arcade_capture_empty.
Qed.

End Display.

(** ** The further properties at work on the concrete runs *)

Lemma arcade_started_reached :
  run demo_classifier demo_put_text [PressArcadeMode false] (demo_boot (Some robin_frame))
  = Some arcade_started.
Proof. vm_compute. reflexivity. Qed.

Lemma after_three_captures_reached :
  run demo_classifier demo_put_text (PressArcadeMode false :: three_captures)
    (demo_boot (Some robin_frame)) = Some after_three_captures.
Proof. vm_compute. reflexivity. Qed.

Lemma running_session_is_shown_witness :
  run demo_classifier demo_put_text [PressArcadeMode false] (demo_boot (Some robin_frame))
  = Some arcade_started ∧
  arcade_running (app arcade_started) = true ∧
  shown (app arcade_started) = Arcade.
Proof.
  assert (arcade_running (app arcade_started) = true) as Hr by (vm_compute; reflexivity).
  split; [exact arcade_started_reached |]. split; [exact Hr |].
  exact (proj1 (running_session_is_shown demo_classifier demo_put_text (Some robin_frame) 0
                  noon _ _ arcade_started_reached Hr)).
Defined.

Lemma callbacks_never_raise_witness :
  run demo_classifier demo_put_text [PressArcadeMode false] (demo_boot (Some robin_frame))
  = Some arcade_started ∧
  is_Some (start_arcade demo_classifier demo_put_text false arcade_started).
Proof.
  split; [exact arcade_started_reached |].
  exact (proj1 (callbacks_never_raise demo_classifier demo_put_text (Some robin_frame) 0
                  noon _ _ arcade_started_reached) false).
Defined.

Lemma stored_images_were_classified_witness :
  run demo_classifier demo_put_text (PressArcadeMode false :: three_captures)
    (demo_boot (Some robin_frame)) = Some after_three_captures ∧
  length (storage_log (world after_three_captures))
  = (2 * length (classifier_log (world after_three_captures)))%nat.
Proof.
  split; [exact after_three_captures_reached |].
  exact (proj1 (stored_images_were_classified demo_classifier demo_put_text
                  (Some robin_frame) 0 noon _ _ after_three_captures_reached)).
Defined.

Lemma stored_names_are_plain_witness :
  run demo_classifier demo_put_text (PressArcadeMode false :: three_captures)
    (demo_boot (Some robin_frame)) = Some after_three_captures ∧
  is_Some (files (world after_three_captures)
             !! "arcade_birds/snowy_owl_20240517_120011.jpg") ∧
  Str.contains " " "arcade_birds/snowy_owl_20240517_120011.jpg" = false.
Proof.
  assert (is_Some (files (world after_three_captures)
                     !! "arcade_birds/snowy_owl_20240517_120011.jpg")) as Hp
    by (exists owl_frame; vm_compute; reflexivity).
  split; [exact after_three_captures_reached |]. split; [exact Hp |].
  exact (proj1 (stored_names_are_plain demo_classifier demo_put_text (Some robin_frame) 0
                  noon _ _ after_three_captures_reached _ Hp)).
Defined.

Lemma arrays_are_never_overwritten_witness :
  run demo_classifier demo_put_text [PressArcadeMode false] (demo_boot (Some robin_frame))
  = Some arcade_started ∧
  step demo_classifier demo_put_text ClickArcadeLabel arcade_started = Some first_capture ∧
  buffered (world first_capture) = buffered (world arcade_started).
Proof.
  assert (step demo_classifier demo_put_text ClickArcadeLabel arcade_started
          = Some first_capture) as Hstep by (vm_compute; reflexivity).
  split; [exact arcade_started_reached |]. split; [exact Hstep |].
  destruct (arrays_are_never_overwritten demo_classifier demo_put_text (Some robin_frame) 0
              noon _ ClickArcadeLabel _ _ arcade_started_reached Hstep) as (_ & _ & H).
  destruct H as [_ Hb]; [intros r; discriminate | exact Hb].
Defined.

Lemma overlay_draws_on_a_copy_witness :
  (1 < next_ref robin_world)%nat ∧
  (overlay_text_on_frame demo_put_text 1%nat NoBird robin_world).1
  = demo_put_text NoBird (deref robin_world 1%nat) ∧
  deref (overlay_text_on_frame demo_put_text 1%nat NoBird robin_world).2 1%nat
  = deref robin_world 1%nat.
Proof.
  assert (1 < next_ref robin_world)%nat as Hr by (vm_compute; lia).
  split; [exact Hr |].
  destruct (overlay_draws_on_a_copy demo_put_text 1%nat NoBird robin_world Hr)
    as (H1 & H2 & _).
  split; [exact H1 | exact H2].
Defined.

Lemma same_result_in_both_modes_witness :
  global_frame (world arcade_started) = Some 1%nat ∧
  freeze_explore (app arcade_started) = false ∧
  arcade_running (app arcade_started) = true ∧
  freeze_arcade (app arcade_started) = false ∧
  explore_label (app (on_explore_capture demo_classifier demo_put_text arcade_started))
  = arcade_label (app (on_arcade_capture demo_classifier demo_put_text arcade_started)).
Proof.
  assert (global_frame (world arcade_started) = Some 1%nat) as Hg by (vm_compute; reflexivity).
  assert (freeze_explore (app arcade_started) = false) as Hfe by (vm_compute; reflexivity).
  assert (arcade_running (app arcade_started) = true) as Hr by (vm_compute; reflexivity).
  assert (freeze_arcade (app arcade_started) = false) as Hfa by (vm_compute; reflexivity).
  do 4 (split; [assumption |]).
  destruct (same_result_in_both_modes demo_classifier demo_put_text arcade_started 1%nat Hg)
    as [He Ha].
  rewrite (He Hfe), (Ha Hr Hfa). reflexivity.
Defined.

Lemma preview_shows_latest_frame_witness :
  shown (app arcade_started) = Arcade ∧
  arcade_running (app arcade_started) = true ∧
  freeze_arcade (app arcade_started) = false ∧
  arcade_start_time (app arcade_started) = Some 0 ∧
  0 < remaining_at (clock (world arcade_started)) 0 (arcade_total (app arcade_started)) ∧
  ∃ st2,
    update_arcade_frame demo_put_text
      (with_world (camera_cycle (Some owl_frame) (world arcade_started)) arcade_started)
    = Some st2 ∧
    arcade_label (app st2) = Some owl_frame.
Proof.
  assert (shown (app arcade_started) = Arcade) as Hs by (vm_compute; reflexivity).
  assert (arcade_running (app arcade_started) = true) as Hr by (vm_compute; reflexivity).
  assert (freeze_arcade (app arcade_started) = false) as Hf by (vm_compute; reflexivity).
  assert (arcade_start_time (app arcade_started) = Some 0) as Hst by (vm_compute; reflexivity).
  assert (0 < remaining_at (clock (world arcade_started)) 0 (arcade_total (app arcade_started)))
    as Hrem by (vm_compute; reflexivity).
  do 5 (split; [assumption |]).
  destruct (preview_shows_latest_frame demo_put_text owl_frame arcade_started) as [_ Ha].
  destruct (Ha 0 Hs Hr Hf Hst Hrem) as (st2 & Hu & Hl & _).
  exists st2. split; [exact Hu | exact Hl].
Defined.

Lemma polls_accumulate_witness :
  run demo_classifier demo_put_text second_session (demo_boot (Some robin_frame))
  = Some in_second_session ∧
  pending PollButtonArcade in_second_session = 2%nat.
Proof.
  assert (run demo_classifier demo_put_text second_session (demo_boot (Some robin_frame))
          = Some in_second_session) as Hrun by (vm_compute; reflexivity).
  split; [exact Hrun |].
  rewrite (proj2 (polls_accumulate demo_classifier demo_put_text (Some robin_frame) 0 noon
                    _ _ Hrun)).
  vm_compute. reflexivity.
Defined.

Lemma collection_holds_accepted_labels_only_witness :
  run demo_classifier demo_put_text (PressArcadeMode false :: three_captures)
    (demo_boot (Some robin_frame)) = Some after_three_captures ∧
  "snowy owl" ∈ arcade_birds (app after_three_captures) ∧
  "snowy owl" ≠ "Unknown".
Proof.
  assert ("snowy owl" ∈ arcade_birds (app after_three_captures)) as Hin.
  { apply elem_of_elements. vm_compute. apply list_elem_of_here. }
  split; [exact after_three_captures_reached |]. split; [exact Hin |].
  exact (proj1 (collection_holds_accepted_labels_only demo_classifier demo_put_text
                  (Some robin_frame) 0 noon _ _ after_three_captures_reached _ Hin)).
Defined.

Lemma countdown_expiry_ends_session_witness :
  shown (app time_is_up) = Arcade ∧
  arcade_running (app time_is_up) = true ∧
  freeze_arcade (app time_is_up) = false ∧
  arcade_start_time (app time_is_up) = Some 0 ∧
  remaining_at (clock (world time_is_up)) 0 (arcade_total (app time_is_up)) ≤ 0 ∧
  update_arcade_frame demo_put_text time_is_up
  = Some (end_arcade_early demo_put_text time_is_up).
Proof.
  assert (shown (app time_is_up) = Arcade) as Hs by (vm_compute; reflexivity).
  assert (arcade_running (app time_is_up) = true) as Hr by (vm_compute; reflexivity).
  assert (freeze_arcade (app time_is_up) = false) as Hf by (vm_compute; reflexivity).
  assert (arcade_start_time (app time_is_up) = Some 0) as Hst by (vm_compute; reflexivity).
  assert (remaining_at (clock (world time_is_up)) 0 (arcade_total (app time_is_up)) ≤ 0)
    as Hrem by (vm_compute; discriminate).
  do 5 (split; [assumption |]).
  exact (proj1 (countdown_expiry_ends_session demo_classifier demo_put_text time_is_up 0
                  Hs Hr Hf Hst Hrem)).
Defined.

Lemma noon_valid (s us : N) :
  (s < 60)%N → (us < 1000000)%N → valid_datetime (at_second s us).
Proof. intros Hs Hus. unfold valid_datetime. cbn. lia. Qed.

Lemma strftime_second_resolution_witness :
  valid_datetime (at_second 7 250000) ∧ valid_datetime (at_second 7 900000) ∧
  strftime (at_second 7 250000) = strftime (at_second 7 900000).
Proof.
  assert (valid_datetime (at_second 7 250000)) as H1 by (apply noon_valid; lia).
  assert (valid_datetime (at_second 7 900000)) as H2 by (apply noon_valid; lia).
  split; [exact H1 |]. split; [exact H2 |].
  exact (proj2 (proj2 (strftime_second_resolution _ _ H1 H2)) eq_refl).
Defined.

Lemma capture_keeps_other_seconds_witness :
  global_frame (world after_three_captures) = Some 8%nat ∧
  valid_datetime (at_second 9 250000) ∧
  valid_datetime (wall (world after_three_captures)) ∧
  whole_second (at_second 9 250000) ≠ whole_second (wall (world after_three_captures)) ∧
  files (capture_and_identify demo_classifier "arcade" (world after_three_captures)).2
    !! "arcade_birds/robin_20240517_120009.jpg" = Some robin_frame.
Proof.
  assert (global_frame (world after_three_captures) = Some 8%nat) as Hg
    by (vm_compute; reflexivity).
  assert (valid_datetime (at_second 9 250000)) as Hd by (apply noon_valid; lia).
  assert (valid_datetime (wall (world after_three_captures))) as Hw
    by (change (wall (world after_three_captures)) with (at_second 11 250000);
        apply noon_valid; lia).
  assert (whole_second (at_second 9 250000) ≠ whole_second (wall (world after_three_captures)))
    as Hne by (vm_compute; discriminate).
  do 4 (split; [assumption |]).
  pose proof (capture_keeps_other_seconds demo_classifier "arcade" "robin"
                (world after_three_captures) 8%nat (at_second 9 250000) Hg Hd Hw Hne) as H.
  cbv zeta in H. etrans; [exact H |]. vm_compute. reflexivity.
Defined.

Lemma explore_result_stays_until_resume_witness :
  shown (app explore_result) = Explore ∧
  freeze_explore (app explore_result) = true ∧
  run_while demo_classifier demo_put_text keeps_explore_display explore_display
    explore_result = Some explore_displayed ∧
  explore_label (app explore_displayed) = explore_label (app explore_result).
Proof.
  assert (shown (app explore_result) = Explore) as Hs by (vm_compute; reflexivity).
  assert (freeze_explore (app explore_result) = true) as Hf by (vm_compute; reflexivity).
  assert (run_while demo_classifier demo_put_text keeps_explore_display explore_display
            explore_result = Some explore_displayed) as Hrun by (vm_compute; reflexivity).
  do 3 (split; [assumption |]).
  destruct (explore_result_stays_until_resume demo_classifier demo_put_text
              explore_result explore_displayed explore_display Hs Hf Hrun)
    as (_ & _ & Hl & _).
  exact Hl.
Defined.

Lemma arcade_result_stays_until_resume_witness :
  shown (app first_capture) = Arcade ∧
  arcade_running (app first_capture) = true ∧
  freeze_arcade (app first_capture) = true ∧
  run_while demo_classifier demo_put_text keeps_display two_second_display first_capture
  = Some first_displayed ∧
  countdown first_displayed = countdown first_capture ∧
  arcade_label (app first_displayed) = arcade_label (app first_capture).
Proof.
  assert (shown (app first_capture) = Arcade) as Hs by (vm_compute; reflexivity).
  assert (arcade_running (app first_capture) = true) as Hr by (vm_compute; reflexivity).
  assert (freeze_arcade (app first_capture) = true) as Hf by (vm_compute; reflexivity).
  assert (run_while demo_classifier demo_put_text keeps_display two_second_display
            first_capture = Some first_displayed) as Hrun by (vm_compute; reflexivity).
  do 4 (split; [assumption |]).
  destruct (arcade_result_stays_until_resume demo_classifier demo_put_text
              first_capture first_displayed two_second_display Hs Hr Hf Hrun)
    as (Hc & Hl & _).
  split; [exact Hc | exact Hl].
Defined.

Lemma capture_request_with_empty_buffer_witness :
  global_frame (world arcade_without_frame) = None ∧
  freeze_explore (app arcade_without_frame) = false ∧
  on_explore_capture demo_classifier demo_put_text arcade_without_frame
  = arcade_without_frame.
Proof.
  assert (global_frame (world arcade_without_frame) = None) as Hg by (vm_compute; reflexivity).
  assert (freeze_explore (app arcade_without_frame) = false) as Hf
    by (vm_compute; reflexivity).
  do 2 (split; [assumption |]).
  exact (proj1 (capture_request_with_empty_buffer demo_classifier demo_put_text
                  arcade_without_frame Hg) Hf).
Defined.
